(** * The e-commerce discount dashboard (dashboard.py)

    A shallow embedding of the script [dashboard.py]: the table that
    [pd.read_csv] returns, the clean-up and the four derived columns, the
    sidebar filters, the headline metrics, the chart panels and the closing
    insights, followed by the properties the specification states about them.

    Numbers are IEEE 754 binary64 values, as pandas holds them in a [float64]
    column; their arithmetic is the one of [SpecFloat], instantiated at
    precision 53 and maximal exponent 1024. A column of whole numbers, which
    pandas reads as [int64], is carried as the binary64 values of its
    integers: the operations of the script agree on the two as long as the
    integers, their products and their sums stay below 2^53.

    The script is a sequence of calls; a part of it is modelled as the list
    of elements it sends to the page together with the way it ends. What
    lies outside the source is a parameter: the file, the user at the
    sidebar and what the slider makes of its bounds ([env]), Python's string
    methods on a header that is not ASCII, the date parser and the
    correlation routine. Drawing a chart is modelled as handing the data to
    the page. *)

From Stdlib Require Import ZArith QArith List Bool Lia String Ascii PeanoNat.
From Stdlib Require Import Floats.SpecFloat.
Import ListNotations.

Local Open Scope string_scope.
Local Open Scope list_scope.

(** ** Binary64 arithmetic *)

Module F64.

Definition prec : Z := 53.
Definition emax : Z := 1024.

Definition float64 : Type := spec_float.

Definition nan : float64 := S754_nan.
Definition zero : float64 := S754_zero false.

Definition add : float64 -> float64 -> float64 := SFadd prec emax.
Definition sub : float64 -> float64 -> float64 := SFsub prec emax.
Definition mul : float64 -> float64 -> float64 := SFmul prec emax.
Definition div : float64 -> float64 -> float64 := SFdiv prec emax.

(** [float(n)] for an integer literal or a count. *)
Definition of_Z (z : Z) : float64 := binary_normalize prec emax z 0 false.

(** The decimal literal [n / 10^k], correctly rounded, as Python reads it. *)
Definition dec (n : Z) (k : nat) : float64 :=
  div (of_Z n) (of_Z (10 ^ Z.of_nat k)).

Definition one : float64 := of_Z 1.
Definition hundred : float64 := of_Z 100.

Definition eqb : float64 -> float64 -> bool := SFeqb.
Definition ltb : float64 -> float64 -> bool := SFltb.
Definition leb : float64 -> float64 -> bool := SFleb.
(** [x > y] and [x >= y] are IEEE comparisons of their own: false on NaN. *)
Definition gtb (x y : float64) : bool := ltb y x.
Definition geb (x y : float64) : bool := leb y x.

Definition is_nan (x : float64) : bool :=
  match x with S754_nan => true | _ => false end.

Definition is_finite (x : float64) : bool :=
  match x with S754_zero _ | S754_finite _ _ _ => true | _ => false end.

End F64.

Import F64.

(** ** Python string methods used on column names *)

(** [str.isspace] on the ASCII range: tab, line feed, vertical tab, form feed,
    carriage return, the four separators 0x1c-0x1f and the space. *)
Definition is_space (a : ascii) : bool :=
  let n := nat_of_ascii a in
  ((9 <=? n) && (n <=? 13) || (28 <=? n) && (n <=? 31) || (n =? 32))%nat.

Fixpoint lstrip (s : string) : string :=
  match s with
  | EmptyString => EmptyString
  | String a s' => if is_space a then lstrip s' else s
  end.

Fixpoint rstrip (s : string) : string :=
  match s with
  | EmptyString => EmptyString
  | String a s' =>
      match rstrip s' with
      | EmptyString => if is_space a then EmptyString else String a EmptyString
      | r => String a r
      end
  end.

(** [s.strip()] *)
Definition strip (s : string) : string := rstrip (lstrip s).

Definition lower_ascii (a : ascii) : ascii :=
  let n := nat_of_ascii a in
  if ((65 <=? n) && (n <=? 90))%nat then ascii_of_nat (n + 32) else a.

(** [s.lower()], on ASCII letters. *)
Fixpoint lower (s : string) : string :=
  match s with
  | EmptyString => EmptyString
  | String a s' => String (lower_ascii a) (lower s')
  end.

(** A header is held as the bytes of its UTF-8 encoding; it is ASCII when
    every byte is below 128. *)
Fixpoint is_ascii (s : string) : bool :=
  match s with
  | EmptyString => true
  | String a s' => (nat_of_ascii a <? 128)%nat && is_ascii s'
  end.

(** [col.strip().lower()]. Python strips Unicode white space and lowers by
    the Unicode case mapping. On an ASCII header these are [strip] and [lower]
    above; on a header with a character outside ASCII the result is left to
    [unicode_strip_lower], which stands for Python's own answer. *)
Definition normalize_name (unicode_strip_lower : string -> string)
    (col : string) : string :=
  if is_ascii col then lower (strip col) else unicode_strip_lower col.

(** ** Cells, frames and what the script shows *)

(** A cell of a table. The missing value of pandas is the float NaN, also in
    a column of strings; a parsed date is a time stamp or [NaT]. *)
Inductive scalar : Type :=
| SNum (x : float64)
| SStr (s : string)
| SStamp (t : Z)
| SNaT.

(** A [DataFrame]: the row labels and the named columns, in column order. *)
Record frame : Type := {
  index : list nat;
  columns : list (string * list scalar)
}.

Definition names (df : frame) : list string := map fst (columns df).

(** One group of the grouped bar chart: a row of [profit_cat]. *)
Record bar : Type := {
  bar_category : scalar;
  bar_discount : bool;
  bar_profit : float64;
  bar_label : string
}.

Inductive chart_kind : Type := Histogram | Scatter | Box.

(** The elements the script sends to the page, in the order it sends them. *)
Inductive element : Type :=
| PageConfig (page_title layout : string)
| Title (text : string)
| Markdown (text : string)
| Header (text : string)
| Subheader (text : string)
| SidebarHeader (text : string)
| ErrorBox (text : string)
| InfoBox (text : string)
| SuccessBox (text : string) (value : float64)
| WarningBox (text : string) (value : float64)
| MultiselectWidget (label : string) (options default : list scalar)
| SliderWidget (label : string) (lo hi : float64) (default : float64 * float64)
| Metric (label : string) (value : float64) (format : string)
| Tabs (labels : list string)
| DataframeView (df : frame)
| PlotlyChart (kind : chart_kind) (data : frame) (x : string)
    (y : option string) (color : string) (title : string)
| BarChart (data : list bar) (title : string)
| Heatmap (labels : list string) (corr : list (list float64))
| Balloons.

(** The exceptions that escape the script: of pandas on a column that is
    missing, met twice or not numeric, and of streamlit on a widget whose
    arguments it refuses. *)
Inductive exn : Type :=
| KeyError (name : string)
| DuplicateLabel (name : string)
| TypeError
| StreamlitError (label : string).

(** How a run of the script, or of a part of it, ends: it returns, it is
    halted by [st.stop()], or an exception escapes. *)
Inductive outcome (A : Type) : Type :=
| Done (a : A)
| Stopped
| Raised (e : exn).

Arguments Done {A} a.
Arguments Stopped {A}.
Arguments Raised {A} e.

(** A part of the script: the elements it has shown and how it ended. *)
Definition script (A : Type) : Type := list element * outcome A.

Definition ret {A : Type} (a : A) : script A := ([], Done a).

Definition bind {A B : Type} (m : script A) (k : A -> script B) : script B :=
  match m with
  | (shown, Done a) => let (shown', o) := k a in (shown ++ shown', o)
  | (shown, Stopped) => (shown, Stopped)
  | (shown, Raised e) => (shown, Raised e)
  end.

Definition emit (e : element) : script unit := ([e], Done tt).
Definition stop {A : Type} : script A := ([], Stopped).
Definition raise {A : Type} (e : exn) : script A := ([], Raised e).

Definition shown {A : Type} (m : script A) : list element := fst m.
Definition result {A : Type} (m : script A) : outcome A := snd m.

Declare Scope script_scope.
Delimit Scope script_scope with script.
Notation "x <- m ;; k" := (bind m (fun x => k))
  (at level 61, m at next level, right associativity) : script_scope.
Notation "m ;; k" := (bind m (fun _ => k))
  (at level 61, right associativity) : script_scope.
Local Open Scope script_scope.

(** ** The pandas operations the script calls *)

(** What a label selects among labelled things. *)
Inductive found (A : Type) : Type :=
| Missing
| One (a : A)
| Several.

Arguments Missing {A}.
Arguments One {A} a.
Arguments Several {A}.

Definition named {A : Type} (name : string) (c : string * A) : bool :=
  String.eqb (fst c) name.

Definition find {A : Type} (name : string) (l : list (string * A)) : found A :=
  match filter (named name) l with
  | [] => Missing
  | [c] => One (snd c)
  | _ => Several
  end.

(** [df[name]]: the column of that name. A missing name raises [KeyError];
    a name carried by several columns selects a two-dimensional block, on
    which every later use in this script raises. *)
Definition getitem (df : frame) (name : string) : script (list scalar) :=
  match find name (columns df) with
  | Missing => raise (KeyError name)
  | One v => ret v
  | Several => raise (DuplicateLabel name)
  end.

Fixpoint replace_column (name : string) (v : list scalar)
    (cols : list (string * list scalar)) : list (string * list scalar) :=
  match cols with
  | [] => []
  | c :: cols' =>
      (if String.eqb (fst c) name then (name, v) else c)
        :: replace_column name v cols'
  end.

(** [df[name] = v]: overwrite the column when the name exists, append it
    otherwise. *)
Definition setitem (df : frame) (name : string) (v : list scalar) : frame :=
  {| index := index df;
     columns :=
       if existsb (String.eqb name) (names df)
       then replace_column name v (columns df)
       else columns df ++ [(name, v)] |}.

(** The numbers of a column; arithmetic and ordering on a string or on a
    time stamp raise [TypeError]. *)
Fixpoint floats (v : list scalar) : script (list float64) :=
  match v with
  | [] => ret []
  | SNum x :: v' => xs <- floats v' ;; ret (x :: xs)
  | _ :: _ => raise TypeError
  end.

Definition map2 {A B C : Type} (f : A -> B -> C) (a : list A) (b : list B)
    : list C :=
  map (fun p => f (fst p) (snd p)) (combine a b).

(** [a * b], [a - b], [a / b] on two columns of one frame. *)
Definition series_op (f : float64 -> float64 -> float64)
    (a b : list scalar) : script (list scalar) :=
  xs <- floats a ;; ys <- floats b ;; ret (map SNum (map2 f xs ys)).

(** [a >= x], [a <= x], [a > x] against a number. *)
Definition series_cmp (p : float64 -> bool) (a : list scalar)
    : script (list bool) :=
  xs <- floats a ;; ret (map p xs).

(** [a == 0]: equality never raises, a cell that is no number is unequal. *)
Definition series_eq (x : float64) (a : list scalar) : list bool :=
  map (fun c => match c with SNum y => eqb y x | _ => false end) a.

(** Equality of cells as the hash tables of [unique] and [isin] see it:
    NaN matches NaN. *)
Definition same (a b : scalar) : bool :=
  match a, b with
  | SNum x, SNum y => (is_nan x && is_nan y) || eqb x y
  | SStr s, SStr t => String.eqb s t
  | SStamp s, SStamp t => Z.eqb s t
  | SNaT, SNaT => true
  | _, _ => false
  end.

(** The distinct elements of a list for an equality test, in order of first
    appearance; [seen] holds what came before. *)
Fixpoint distinct_from {A : Type} (eq : A -> A -> bool) (seen l : list A)
    : list A :=
  match l with
  | [] => []
  | x :: l' =>
      if existsb (eq x) seen then distinct_from eq seen l'
      else x :: distinct_from eq (x :: seen) l'
  end.

(** [a.unique()]: the distinct values, in order of first appearance. *)
Definition unique (v : list scalar) : list scalar :=
  distinct_from same [] v.

(** [a.isin(values)] *)
Definition isin (v values : list scalar) : list bool :=
  map (fun c => existsb (same c) values) v.

(** Selection by a boolean mask, [a[mask]]. *)
Fixpoint select {A : Type} (mask : list bool) (l : list A) : list A :=
  match mask, l with
  | b :: mask', x :: l' => if b then x :: select mask' l' else select mask' l'
  | _, _ => []
  end.

(** [df[mask]]: the rows where the mask holds, with their labels. *)
Definition loc (mask : list bool) (df : frame) : frame :=
  {| index := select mask (index df);
     columns := map (fun c => (fst c, select mask (snd c))) (columns df) |}.

(** [df.head(n)] *)
Definition head (n : nat) (df : frame) : frame :=
  {| index := firstn n (index df);
     columns := map (fun c => (fst c, firstn n (snd c))) (columns df) |}.

(** [df.empty] *)
Definition empty (df : frame) : bool :=
  match index df, columns df with
  | [], _ | _, [] => true
  | _, _ => false
  end.

Definition dropna (xs : list float64) : list float64 :=
  filter (fun x => negb (is_nan x)) xs.

(** [a.min()] and [a.max()] skip NaN and are NaN on nothing. *)
Definition nanmin (xs : list float64) : float64 :=
  match dropna xs with
  | [] => nan
  | x :: r => fold_left (fun m y => if ltb y m then y else m) r x
  end.

Definition nanmax (xs : list float64) : float64 :=
  match dropna xs with
  | [] => nan
  | x :: r => fold_left (fun m y => if ltb m y then y else m) r x
  end.

(** [a.sum()] skips NaN and is 0 on nothing; the values are accumulated from
    left to right. *)
Definition nansum (xs : list float64) : float64 :=
  fold_left add (dropna xs) zero.

(** [a.mean()] skips NaN and is NaN on nothing. *)
Definition nanmean (xs : list float64) : float64 :=
  match dropna xs with
  | [] => nan
  | ys => div (fold_left add ys zero) (of_Z (Z.of_nat (List.length ys)))
  end.

(** [isna] on a cell. *)
Definition isna (c : scalar) : bool :=
  match c with
  | SNum x => is_nan x
  | SNaT => true
  | _ => false
  end.

(** A group key of [groupby(["category", discount > 0])]. *)
Definition key : Type := (scalar * bool)%type.

Definition same_key (k1 k2 : key) : bool :=
  same (fst k1) (fst k2) && Bool.eqb (snd k1) (snd k2).

(** The order in which [groupby] sorts its keys: numbers, strings and time
    stamps among themselves; cells of different kinds keep their place. *)
Definition scalar_ltb (a b : scalar) : bool :=
  match a, b with
  | SNum x, SNum y => ltb x y
  | SStr s, SStr t => String.ltb s t
  | SStamp s, SStamp t => Z.ltb s t
  | _, _ => false
  end.

Definition key_ltb (k1 k2 : key) : bool :=
  scalar_ltb (fst k1) (fst k2)
  || (same (fst k1) (fst k2) && negb (snd k1) && snd k2).

Fixpoint insert_key (k : key) (l : list key) : list key :=
  match l with
  | [] => [k]
  | k' :: l' => if key_ltb k k' then k :: l else k' :: insert_key k l'
  end.

Definition sort_keys (l : list key) : list key := fold_right insert_key [] l.

(** The keys of the groups: rows with a missing category form no group. *)
Definition group_keys (keys : list key) : list key :=
  sort_keys
    (distinct_from same_key [] (filter (fun k => negb (isna (fst k))) keys)).

(** [groupby([cats, flags])[vals].mean().reset_index()]: one row per group,
    with the mean of the values of the rows in it. *)
Definition groupby_mean (cats : list scalar) (flags : list bool)
    (vals : list float64) : list (key * float64) :=
  let keys := combine cats flags in
  map (fun k => (k, nanmean (select (map (same_key k) keys) vals)))
      (group_keys keys).

(** [profit_cat["discount"].map({True: "Discounted", False: "Non-Discounted"})] *)
Definition discounted_label (flag : bool) : string :=
  if flag then "Discounted" else "Non-Discounted".

Definition bar_of (g : key * float64) : bar :=
  {| bar_category := fst (fst g);
     bar_discount := snd (fst g);
     bar_profit := snd g;
     bar_label := discounted_label (snd (fst g)) |}.

(** ** The four derived values of one record (lines 49-52)

    The operators [*], [-] and [/] of the four assignments are those of the
    values they meet: binary64 in a loaded table. The formulas are written
    once over the interface and read at binary64 by the script; the exact
    rationals are the second instance, the arithmetic the formulas are meant
    to approximate. *)

Class Arith (num : Type) : Type := {
  times : num -> num -> num;
  minus : num -> num -> num;
  over : num -> num -> num
}.

#[export] Instance binary64 : Arith float64 :=
  {| times := mul; minus := sub; over := div |}.

#[export] Instance exact : Arith Q :=
  {| times := Qmult; minus := Qminus; over := Qdiv |}.

Section Derived.

Context {num : Type} `{Arith num}.

Definition revenue_of (price quantity : num) : num :=
  times price quantity.
Definition discount_value_of (price quantity discount : num) : num :=
  times (revenue_of price quantity) discount.
Definition profit_of (price quantity discount : num) : num :=
  minus (revenue_of price quantity)
        (discount_value_of price quantity discount).
Definition profit_margin_of (price quantity discount : num) : num :=
  over (profit_of price quantity discount) (revenue_of price quantity).

End Derived.

(** ** The world around the script *)

(** The files and the user at the sidebar. [read_csv path] is what
    [pd.read_csv] returns, [None] when no file exists at the path. A widget is
    called with its label, its bounds or options and its default, and answers
    with the current selection; the slider answers [None] when the library
    refuses the bounds it is called with. *)
Record env : Type := {
  read_csv : string -> option frame;
  multiselect : string -> list scalar -> list scalar -> list scalar;
  slider :
    string -> float64 -> float64 -> float64 * float64 ->
    option (float64 * float64)
}.

(** [st.sidebar.slider(label, min, max, default)]. The library raises on
    bounds that are equal; whether it raises on other bounds is left to
    [slider]. The control is drawn only when the call returns. *)
Definition slider_widget (w : env) (label : string) (lo hi : float64)
    (default : float64 * float64) : script (float64 * float64) :=
  if eqb lo hi then raise (StreamlitError label)
  else
    match slider w label lo hi default with
    | Some range => emit (SliderWidget label lo hi default) ;; ret range
    | None => raise (StreamlitError label)
    end.

(** A user who leaves every control as it is, at a slider that refuses
    equal bounds only. *)
Definition untouched (file : option frame) : env :=
  {| read_csv := fun _ => file;
     multiselect := fun _ _ default => default;
     slider := fun _ _ _ default => Some default |}.

(** The state of the three filters. *)
Record filter_state : Type := {
  categories : list scalar;
  regions : list scalar;
  discount_range : float64 * float64
}.

(** ** The script *)

Section Dashboard.

(** Three library routines whose results the script passes on unread:
    [str.strip] followed by [str.lower] on a header that is not ASCII, the
    date parser behind [pd.to_datetime(..., errors="coerce")], [None] on a
    value it cannot read, and the Pearson correlation of two columns behind
    [DataFrame.corr()]. *)
Variable unicode_strip_lower : string -> string.
Variable parse_datetime : scalar -> option Z.
Variable pearson : list float64 -> list float64 -> float64.

Definition to_datetime (v : list scalar) : list scalar :=
  map (fun c =>
         match c with
         | SStamp _ | SNaT => c
         | _ => match parse_datetime c with
                | Some t => SStamp t
                | None => SNaT
                end
         end) v.

(** Lines 42-43. *)
Definition parse_order_date (df : frame) : script frame :=
  if existsb (String.eqb "order_date") (names df) then
    v <- getitem df "order_date" ;;
    ret (setitem df "order_date" (to_datetime v))
  else ret df.

(** Line 46. *)
Definition standardize_columns (df : frame) : frame :=
  {| index := index df;
     columns :=
       map (fun c => (normalize_name unicode_strip_lower (fst c), snd c))
         (columns df) |}.

(** Lines 49-52. *)
Definition feature_engineering (df : frame) : script frame :=
  price <- getitem df "price" ;;
  quantity <- getitem df "quantity" ;;
  revenue <- series_op mul price quantity ;;
  let df := setitem df "revenue" revenue in
  revenue <- getitem df "revenue" ;;
  discount <- getitem df "discount" ;;
  discount_value <- series_op mul revenue discount ;;
  let df := setitem df "discount_value" discount_value in
  revenue <- getitem df "revenue" ;;
  discount_value <- getitem df "discount_value" ;;
  profit <- series_op sub revenue discount_value ;;
  let df := setitem df "profit" profit in
  profit <- getitem df "profit" ;;
  revenue <- getitem df "revenue" ;;
  profit_margin <- series_op div profit revenue ;;
  ret (setitem df "profit_margin" profit_margin).

(** Lines 42-46: data cleaning. *)
Definition clean (raw : frame) : script frame :=
  df <- parse_order_date raw ;; ret (standardize_columns df).

(** Lines 42-52: from the table as read to the table the page works on. *)
Definition prepare (raw : frame) : script frame :=
  df <- clean raw ;; feature_engineering df.

(** [float(df[name].min())] and [float(df[name].max())] *)
Definition column_min (df : frame) (name : string) : script float64 :=
  v <- getitem df name ;; xs <- floats v ;; ret (nanmin xs).
Definition column_max (df : frame) (name : string) : script float64 :=
  v <- getitem df name ;; xs <- floats v ;; ret (nanmax xs).

(** Lines 57-76: the three controls of the sidebar. *)
Definition sidebar (w : env) (df : frame) : script filter_state :=
  emit (SidebarHeader "Filters") ;;
  options <- getitem df "category" ;;
  default <- getitem df "category" ;;
  emit (MultiselectWidget "Select Categories:" (unique options)
          (unique default)) ;;
  let cats :=
    multiselect w "Select Categories:" (unique options) (unique default) in
  options <- getitem df "region" ;;
  default <- getitem df "region" ;;
  emit (MultiselectWidget "Select Regions:" (unique options)
          (unique default)) ;;
  let regs :=
    multiselect w "Select Regions:" (unique options) (unique default) in
  lo <- column_min df "discount" ;;
  hi <- column_max df "discount" ;;
  lo' <- column_min df "discount" ;;
  hi' <- column_max df "discount" ;;
  range <- slider_widget w "Select Discount Range:" lo hi (lo', hi') ;;
  ret {| categories := cats; regions := regs; discount_range := range |}.

Definition and_mask (a b : list bool) : list bool := map2 andb a b.

(** Lines 78-83: the mask of the three filters. *)
Definition filter_mask (df : frame) (st : filter_state) : script (list bool) :=
  category <- getitem df "category" ;;
  region <- getitem df "region" ;;
  discount <- getitem df "discount" ;;
  above <- series_cmp (fun x => geb x (fst (discount_range st))) discount ;;
  discount <- getitem df "discount" ;;
  below <- series_cmp (fun x => leb x (snd (discount_range st))) discount ;;
  ret (and_mask
         (and_mask
            (and_mask (isin category (categories st))
                      (isin region (regions st)))
            above)
         below).

(** Lines 78-83: [filtered_df]. *)
Definition apply_filters (df : frame) (st : filter_state) : script frame :=
  mask <- filter_mask df st ;; ret (loc mask df).

(** [df[name].mean()] and [df[name].sum()] *)
Definition column_mean (df : frame) (name : string) : script float64 :=
  v <- getitem df name ;; xs <- floats v ;; ret (nanmean xs).
Definition column_sum (df : frame) (name : string) : script float64 :=
  v <- getitem df name ;; xs <- floats v ;; ret (nansum xs).

(** Lines 88-94: the four headline metrics. *)
Definition key_metrics (filtered_df : frame) : script unit :=
  emit (Markdown "### Key Metrics") ;;
  m <- column_mean filtered_df "discount" ;;
  emit (Metric "Average Discount" m "{:.2%}") ;;
  s <- column_sum filtered_df "revenue" ;;
  emit (Metric "Total Revenue" s "${:,.0f}") ;;
  s <- column_sum filtered_df "profit" ;;
  emit (Metric "Total Profit" s "${:,.0f}") ;;
  m <- column_mean filtered_df "profit_margin" ;;
  emit (Metric "Avg Profit Margin" m "{:.1%}").

(** A plotly express figure reads the columns it is told to draw. *)
Definition plotly (kind : chart_kind) (data : frame) (x : string)
    (y : option string) (color title : string) : script unit :=
  _ <- getitem data x ;;
  _ <- match y with Some y' => getitem data y' | None => ret [] end ;;
  _ <- getitem data color ;;
  emit (PlotlyChart kind data x y color title).

(** Lines 127-132: [profit_cat]. *)
Definition profit_cat (filtered_df : frame) : script (list bar) :=
  discount <- getitem filtered_df "discount" ;;
  flags <- series_cmp (fun x => gtb x zero) discount ;;
  category <- getitem filtered_df "category" ;;
  profit <- getitem filtered_df "profit" ;;
  profits <- floats profit ;;
  ret (map bar_of (groupby_mean category flags profits)).

Definition corr_cols : list string :=
  ["discount"; "revenue"; "profit"; "quantity"].

Fixpoint numeric_columns (df : frame) (cols : list string)
    : script (list (list float64)) :=
  match cols with
  | [] => ret []
  | c :: cols' =>
      v <- getitem df c ;; xs <- floats v ;;
      rest <- numeric_columns df cols' ;; ret (xs :: rest)
  end.

(** Line 141: [filtered_df[corr_cols].corr()]. *)
Definition corr (filtered_df : frame)
    : script (list (list float64)) :=
  cols <- numeric_columns filtered_df corr_cols ;;
  ret (map (fun a => map (fun b => pearson a b) cols) cols).

(** Lines 99-144: the four tabs. *)
Definition tabs (filtered_df : frame) : script unit :=
  emit (Tabs ["Overview"; "Discount Impact"; "Regional Analysis";
              "Correlations"]) ;;
  emit (Subheader "Dataset Preview") ;;
  emit (DataframeView (head 10 filtered_df)) ;;
  emit (Subheader "Discount Distribution") ;;
  plotly Histogram filtered_df "discount" None "category"
    "Discount Distribution by Category" ;;
  emit (Subheader "Discount vs Revenue") ;;
  plotly Scatter filtered_df "discount" (Some "revenue") "category"
    "Revenue vs Discount" ;;
  emit (Subheader "Discount vs Profit") ;;
  plotly Scatter filtered_df "discount" (Some "profit") "region"
    "Profit vs Discount" ;;
  emit (Subheader "Discount Patterns Across Regions") ;;
  plotly Box filtered_df "region" (Some "discount") "region"
    "Discount Patterns by Region" ;;
  emit (Subheader
          "Average Profit by Category (Discounted vs Non-Discounted)") ;;
  bars <- profit_cat filtered_df ;;
  emit (BarChart bars "Profit by Category") ;;
  emit (Subheader "Correlation Heatmap") ;;
  matrix <- corr filtered_df ;;
  emit (Heatmap corr_cols matrix).

Definition cannot_compare : string :=
  "All items have discounts - cannot compare with non-discounted sales.".
Definition sales_boost_text : string :=
  "Discounts increase average quantity sold by **{sales_boost:.1f}%** on average.".
Definition profit_diff_text : string :=
  "Profit margins shrink by about **{profit_diff:.1f} percentage points** when discounts are applied.".

(** Lines 155-156, from the means of the two subsets. *)
Definition sales_boost (discounted_quantity non_discounted_quantity : float64)
    : float64 :=
  mul (div (sub discounted_quantity non_discounted_quantity)
           non_discounted_quantity)
      hundred.
Definition profit_diff (discounted_margin non_discounted_margin : float64)
    : float64 :=
  mul (sub discounted_margin non_discounted_margin) hundred.

(** Lines 151-161: the comparison of discounted and non-discounted rows. *)
Definition comparison (filtered_df : frame) : script unit :=
  discount <- getitem filtered_df "discount" ;;
  positive <- series_cmp (fun x => gtb x zero) discount ;;
  let discounted := loc positive filtered_df in
  discount <- getitem filtered_df "discount" ;;
  let non_discounted := loc (series_eq zero discount) filtered_df in
  if negb (empty non_discounted) then
    dq <- column_mean discounted "quantity" ;;
    nq <- column_mean non_discounted "quantity" ;;
    _ <- column_mean non_discounted "quantity" ;;
    dm <- column_mean discounted "profit_margin" ;;
    nm <- column_mean non_discounted "profit_margin" ;;
    emit (SuccessBox sales_boost_text (sales_boost dq nq)) ;;
    emit (WarningBox profit_diff_text (profit_diff dm nm))
  else
    emit (InfoBox cannot_compare).

(** Lines 149-165. *)
Definition insights (filtered_df : frame) : script unit :=
  emit (Header "Key Insights") ;;
  comparison filtered_df ;;
  emit (InfoBox
    "Seasonal trends may show higher discounts during sales months or special events.") ;;
  emit (InfoBox
    "Electronics and Sports typically benefit most from well-calibrated discounts.") ;;
  emit Balloons.

(** Lines 85-165: everything the page draws from the Filtered View. *)
Definition render (filtered_df : frame) : script unit :=
  key_metrics filtered_df ;;
  tabs filtered_df ;;
  insights filtered_df.

Definition file_path : string := "ecommerce_dataset.csv".

Definition not_found : string :=
  "Dataset not found. Make sure 'ecommerce_dataset.csv' is in the same folder as this file.".

(** Lines 28-37: the check of the path, then [load_data()]. *)
Definition load_data (w : env) : script frame :=
  match read_csv w file_path with
  | None => emit (ErrorBox not_found) ;; stop
  | Some raw => ret raw
  end.

(** The whole script, run once per interaction. The pictographs of the
    titles and messages are left out of the texts, and the long dash of one
    message is written as a hyphen. *)
Definition dashboard (w : env) : script unit :=
  emit (PageConfig "E-Commerce Discount Analysis" "wide") ;;
  emit (Title "E-Commerce Discount Analysis Dashboard") ;;
  emit (Markdown
    "Analyze how discounts affect **sales, profit, and customer behavior** across categories and regions.") ;;
  raw <- load_data w ;;
  df <- prepare raw ;;
  st <- sidebar w df ;;
  filtered_df <- apply_filters df st ;;
  render filtered_df.

End Dashboard.

(** ** Records: the rows of a frame

    The properties below speak of rows. A row is the label of the record and
    its cells under the names of their columns. *)

Definition row : Type := (nat * list (string * scalar))%type.

Fixpoint rows_of (idx : list nat) (cols : list (string * list scalar))
    : list row :=
  match idx with
  | [] => []
  | label :: idx' =>
      (label, map (fun c => (fst c, hd (SNum nan) (snd c))) cols)
        :: rows_of idx' (map (fun c => (fst c, tl (snd c))) cols)
  end.

Definition rows (df : frame) : list row := rows_of (index df) (columns df).

(** The cell of a row under a name, and the number in a cell. *)
Definition cell (name : string) (r : row) : scalar :=
  match find name (snd r) with
  | One c => c
  | _ => SNum nan
  end.

Definition number (c : scalar) : float64 :=
  match c with
  | SNum x => x
  | _ => nan
  end.

Definition num (name : string) (r : row) : float64 := number (cell name r).

(** Every column has one cell per label. *)
Definition aligned (df : frame) : Prop :=
  Forall (fun c => List.length (snd c) = List.length (index df)) (columns df).

(** The column [name] exists once and holds the cells [v]. *)
Definition column (df : frame) (name : string) (v : list scalar) : Prop :=
  getitem df name = ret v.

(** The column [name] exists once and holds numbers only. *)
Definition numeric (df : frame) (name : string) : Prop :=
  exists v xs, column df name v /\ floats v = ret xs.

Definition present (df : frame) (name : string) : Prop :=
  exists v, column df name v.

(** The Filter State as the specification words it: the category is among
    the selected ones, the region is among the selected ones, and the
    discount lies in the closed interval. *)
Definition admits (st : filter_state) (r : row) : bool :=
  existsb (same (cell "category" r)) (categories st)
  && existsb (same (cell "region" r)) (regions st)
  && leb (fst (discount_range st)) (num "discount" r)
  && leb (num "discount" r) (snd (discount_range st)).

(** A table on which lines 49-52 run: every column has one cell per label,
    no two columns share a name, and price, quantity and discount are
    columns of numbers. *)
Definition priced (df : frame) : Prop :=
  aligned df /\ NoDup (names df)
  /\ numeric df "price" /\ numeric df "quantity" /\ numeric df "discount".

(** A table the page works on: the table after lines 42-52, or a selection
    of its rows. *)
Definition prepared (df : frame) : Prop :=
  aligned df
  /\ present df "category" /\ present df "region"
  /\ numeric df "discount" /\ numeric df "quantity"
  /\ numeric df "revenue" /\ numeric df "profit"
  /\ numeric df "profit_margin".

(** The four derived cells of a row against its three source cells. *)
Definition derived (r : row) : Prop :=
  cell "revenue" r
    = SNum (revenue_of (num "price" r) (num "quantity" r))
  /\ cell "discount_value" r
    = SNum (discount_value_of (num "price" r) (num "quantity" r)
              (num "discount" r))
  /\ cell "profit" r
    = SNum (profit_of (num "price" r) (num "quantity" r) (num "discount" r))
  /\ cell "profit_margin" r
    = SNum (profit_margin_of (num "price" r) (num "quantity" r)
              (num "discount" r)).

(** The table after lines 49-52, from the numbers of its three source
    columns. *)
Definition derive (ps qs ds : list float64) (df : frame) : frame :=
  let revenue := map2 mul ps qs in
  let discount_value := map2 mul revenue ds in
  let profit := map2 sub revenue discount_value in
  let profit_margin := map2 div profit revenue in
  setitem
    (setitem
       (setitem (setitem df "revenue" (map SNum revenue))
          "discount_value" (map SNum discount_value))
       "profit" (map SNum profit))
    "profit_margin" (map SNum profit_margin).

(** ** A small dataset

    The two records of the specification's example, as [pd.read_csv] hands
    them over, and library routines for a run on it: no cell reads as a date
    and a correlation is not defined on two points of which one is constant. *)

Definition two_records : frame :=
  {| index := [0; 1]%nat;
     columns :=
       [("price", [SNum (of_Z 100); SNum (of_Z 50)]);
        ("quantity", [SNum (of_Z 2); SNum (of_Z 1)]);
        ("discount", [SNum (dec 1 1); SNum zero]);
        ("category", [SStr "A"; SStr "B"]);
        ("region", [SStr "X"; SStr "Y"])] |}.

Definition no_date (c : scalar) : option Z := None.
Definition no_correlation (a b : list float64) : float64 := nan.

(** The example tables have ASCII headers, so that Python's Unicode methods
    are never asked. *)
Definition no_unicode (col : string) : string := col.

(** The state of the filters after lines 59-76, from the category and region
    columns of the table and the range the slider has answered. *)
Definition chosen (w : env) (category region : list scalar)
    (range : float64 * float64) : filter_state :=
  {| categories :=
       multiselect w "Select Categories:" (unique category) (unique category);
     regions :=
       multiselect w "Select Regions:" (unique region) (unique region);
     discount_range := range |}.

(** Two discounts of the table differ: the smallest is below the largest. *)
Definition spread (df : frame) : Prop :=
  exists r r',
    In r (rows df) /\ In r' (rows df)
    /\ ltb (num "discount" r) (num "discount" r') = true.

(** Every non-missing discount of the table is the same number, and there is
    one. *)
Definition flat (df : frame) : Prop :=
  (exists r, In r (rows df) /\ is_nan (num "discount" r) = false)
  /\ forall r r',
       In r (rows df) -> In r' (rows df) ->
       is_nan (num "discount" r) = false ->
       is_nan (num "discount" r') = false ->
       eqb (num "discount" r) (num "discount" r') = true.

(** The slider answers the call of line 71 on the table: it does not refuse
    the least and the greatest discount as its bounds and its default. *)
Definition accepted (w : env) (df : frame) : Prop :=
  exists d xs range,
    column df "discount" d /\ floats d = ret xs
    /\ slider w "Select Discount Range:" (nanmin xs) (nanmax xs)
         (nanmin xs, nanmax xs) = Some range.

(** Lines 57-83 in one piece: the Filtered View of a run. *)
Definition filtered_view (w : env) (df : frame) : script frame :=
  st <- sidebar w df ;; apply_filters df st.

(** A record whose discount is missing, next to two with discounts 0.1 and
    0.5. *)
Definition missing_discount : frame :=
  {| index := [0; 1; 2]%nat;
     columns :=
       [("price", [SNum (of_Z 10); SNum (of_Z 20); SNum (of_Z 30)]);
        ("quantity", [SNum (of_Z 1); SNum (of_Z 2); SNum (of_Z 3)]);
        ("discount", [SNum nan; SNum (dec 1 1); SNum (dec 5 1)]);
        ("category", [SStr "A"; SStr "A"; SStr "B"]);
        ("region", [SStr "X"; SStr "X"; SStr "Y"])] |}.

(** The table the page works on for a dataset without dates. *)
Definition prepared_of (raw : frame) : frame :=
  match prepare no_unicode no_date raw with
  | (_, Done df) => df
  | _ => raw
  end.

(** A state of the filters: category A only, every region, discounts from
    0 to 0.1. *)
Definition category_A : filter_state :=
  {| categories := [SStr "A"];
     regions := [SStr "X"; SStr "Y"];
     discount_range := (zero, dec 1 1) |}.

(** The two subsets of section 4.6 of the specification, as rows. *)
Definition discounted_rows (df : frame) : list row :=
  filter (fun r => gtb (num "discount" r) zero) (rows df).
Definition non_discounted_rows (df : frame) : list row :=
  filter (fun r => eqb (num "discount" r) zero) (rows df).

(** The mean of a field over some rows. *)
Definition mean_of (name : string) (rs : list row) : float64 :=
  nanmean (map (num name) rs).


(** Two records with the same discount, 0.2, and prices 7 and 1, and a
    third without discount. *)
Definition same_discount : frame :=
  {| index := [0; 1; 2]%nat;
     columns :=
       [("price", [SNum (of_Z 7); SNum (of_Z 1); SNum (of_Z 1)]);
        ("quantity", [SNum (of_Z 1); SNum (of_Z 1); SNum (of_Z 1)]);
        ("discount", [SNum (dec 2 1); SNum (dec 2 1); SNum zero]);
        ("category", [SStr "A"; SStr "A"; SStr "A"]);
        ("region", [SStr "X"; SStr "X"; SStr "X"])] |}.

(** A table with one column of one text cell, under a given header. *)
Definition one_column (header value : string) : frame :=
  {| index := [0]%nat; columns := [(header, [SStr value])] |}.

(** The group of a row in the grouped bar chart, and the rows of a group. *)
Definition group_of (r : row) : key :=
  (cell "category" r, gtb (num "discount" r) zero).
Definition in_group (k : key) (r : row) : bool := same_key k (group_of r).

(** The groups as the specification words them: a discounted row has
    discount > 0, a non-discounted row has discount == 0. *)
Definition in_group_as_specified (k : key) (r : row) : bool :=
  same (fst k) (cell "category" r)
  && (if snd k then gtb (num "discount" r) zero
      else eqb (num "discount" r) zero).

(** A record with a negative discount (a surcharge of one half) next to one
    without discount, in one category. *)
Definition surcharge : frame :=
  {| index := [0; 1]%nat;
     columns :=
       [("price", [SNum (of_Z 100); SNum (of_Z 100)]);
        ("quantity", [SNum (of_Z 1); SNum (of_Z 1)]);
        ("discount", [SNum (SFopp (dec 5 1)); SNum zero]);
        ("category", [SStr "A"; SStr "A"]);
        ("region", [SStr "X"; SStr "X"])] |}.

(** The two records under headers as a spreadsheet may write them, with a
    column of order dates. *)
Definition mixed_headers : frame :=
  {| index := [0; 1]%nat;
     columns :=
       [(" Price", [SNum (of_Z 100); SNum (of_Z 50)]);
        ("Quantity", [SNum (of_Z 2); SNum (of_Z 1)]);
        ("DISCOUNT ", [SNum (dec 1 1); SNum zero]);
        ("Category", [SStr "A"; SStr "B"]);
        ("Region", [SStr "X"; SStr "Y"]);
        ("Order_Date", [SStr "2024-01-05"; SStr "2024-02-11"])] |}.

(** A dataset the page accepts: every column has one cell per label, the
    headers are distinct once normalized, price, quantity and discount are
    columns of numbers and category and region exist. *)
Definition well_formed (unicode_strip_lower : string -> string)
    (raw : frame) : Prop :=
  aligned raw
  /\ NoDup (map (normalize_name unicode_strip_lower) (names raw))
  /\ numeric (standardize_columns unicode_strip_lower raw) "price"
  /\ numeric (standardize_columns unicode_strip_lower raw) "quantity"
  /\ numeric (standardize_columns unicode_strip_lower raw) "discount"
  /\ present (standardize_columns unicode_strip_lower raw) "category"
  /\ present (standardize_columns unicode_strip_lower raw) "region".

(** The two records under headers in capitals, with the column of dates. *)
Definition upper_headers : frame :=
  {| index := [0; 1]%nat;
     columns :=
       [("PRICE ", [SNum (of_Z 100); SNum (of_Z 50)]);
        (" QUANTITY", [SNum (of_Z 2); SNum (of_Z 1)]);
        ("discount", [SNum (dec 1 1); SNum zero]);
        ("CATEGORY", [SStr "A"; SStr "B"]);
        ("region", [SStr "X"; SStr "Y"]);
        ("ORDER_DATE", [SStr "2024-01-05"; SStr "2024-02-11"])] |}.

(** A wider state of the filters than [category_A]: both categories, every
    region, discounts from 0 to 0.5. *)
Definition both_categories : filter_state :=
  {| categories := [SStr "A"; SStr "B"];
     regions := [SStr "X"; SStr "Y"];
     discount_range := (zero, dec 5 1) |}.

(** An inverted range: the lower end, 0.5, above the upper end, 0.1. *)
Definition inverted_range : filter_state :=
  {| categories := [SStr "A"; SStr "B"];
     regions := [SStr "X"; SStr "Y"];
     discount_range := (dec 5 1, dec 1 1) |}.

(** One state of the filters selects at most what another selects. *)
Definition narrower (st st' : filter_state) : Prop :=
  incl (categories st) (categories st')
  /\ incl (regions st) (regions st')
  /\ leb (fst (discount_range st')) (fst (discount_range st)) = true
  /\ leb (snd (discount_range st)) (snd (discount_range st')) = true.

(** Two records without discount. *)
Definition no_discounts : frame :=
  {| index := [0; 1]%nat;
     columns :=
       [("price", [SNum (of_Z 100); SNum (of_Z 50)]);
        ("quantity", [SNum (of_Z 2); SNum (of_Z 1)]);
        ("discount", [SNum zero; SNum zero]);
        ("category", [SStr "A"; SStr "B"]);
        ("region", [SStr "X"; SStr "Y"])] |}.

(** * Properties *)

(** ** Facts about binary64 comparisons *)

Lemma compare_refl (x : float64) :
  is_nan x = false -> SFcompare x x = Some Eq.
Proof.
  destruct x as [s | s | | s m e]; simpl; try discriminate; intros _.
  - reflexivity.
  - destruct s; reflexivity.
  - rewrite Z.compare_refl, Pos.compare_cont_refl. destruct s; reflexivity.
Qed.

Lemma compare_antisym (x y : float64) :
  SFcompare y x = option_map CompOpp (SFcompare x y).
Proof.
  destruct x as [s | s | | s m e], y as [s' | s' | | s' m' e']; simpl;
    try reflexivity;
    try (destruct s; reflexivity);
    try (destruct s'; reflexivity);
    try (destruct s, s'; reflexivity).
  rewrite !Pos.compare_cont_spec; simpl.
  destruct s, s'; simpl; try reflexivity;
    destruct (Z.compare_spec e e'), (Z.compare_spec e' e); try lia;
    try reflexivity; subst;
    destruct (Pos.compare_spec m m'), (Pos.compare_spec m' m); try lia;
    reflexivity.
Qed.

Lemma eqb_refl (x : float64) : is_nan x = false -> eqb x x = true.
Proof. intros H. unfold eqb, SFeqb. now rewrite compare_refl. Qed.

Lemma leb_refl (x : float64) : is_nan x = false -> leb x x = true.
Proof. intros H. unfold leb, SFleb. now rewrite compare_refl. Qed.

Lemma compare_nan (x y : float64) :
  is_nan x = false -> is_nan y = false -> exists c, SFcompare x y = Some c.
Proof.
  destruct x, y; simpl; try discriminate; intros _ _; eexists; reflexivity.
Qed.

(** Two numbers are ordered one way or the other. *)
Lemma not_ltb_leb (x y : float64) :
  is_nan x = false -> is_nan y = false -> ltb y x = false -> leb x y = true.
Proof.
  intros Hx Hy. unfold ltb, leb, SFltb, SFleb.
  rewrite (compare_antisym x y).
  destruct (compare_nan x y Hx Hy) as [c ->]. now destruct c.
Qed.

Lemma ltb_leb (x y : float64) : ltb x y = true -> leb x y = true.
Proof.
  unfold ltb, leb, SFltb, SFleb.
  destruct (SFcompare x y) as [[ | | ] | ]; congruence.
Qed.

Lemma leb_not_nan (x y : float64) :
  leb x y = true -> is_nan x = false /\ is_nan y = false.
Proof.
  unfold leb, SFleb. destruct x, y; simpl; try discriminate; auto.
Qed.

Lemma leb_nan_l (x : float64) : leb nan x = false.
Proof. reflexivity. Qed.

Lemma leb_nan_r (x : float64) : leb x nan = false.
Proof. now destruct x. Qed.

Lemma leb_trans (x y z : float64) :
  leb x y = true -> leb y z = true -> leb x z = true.
Proof.
  unfold leb, SFleb.
  destruct x as [s | s | | s m e], y as [s' | s' | | s' m' e'],
    z as [s'' | s'' | | s'' m'' e'']; simpl; try discriminate;
    try reflexivity;
    try (destruct s; simpl; congruence);
    try (destruct s'; simpl; congruence);
    try (destruct s''; simpl; congruence);
    try (destruct s, s'; simpl; congruence);
    try (destruct s, s''; simpl; congruence);
    try (destruct s', s''; simpl; congruence);
    try (destruct s, s', s''; simpl; congruence).
  rewrite !Pos.compare_cont_spec; simpl.
  destruct s, s', s''; simpl; try congruence;
    destruct (Z.compare_spec e e'), (Z.compare_spec e' e''),
      (Z.compare_spec e e''); try congruence; try lia; subst;
    destruct (Pos.compare_spec m m'), (Pos.compare_spec m' m''),
      (Pos.compare_spec m m''); simpl; try congruence; try lia.
Qed.

Lemma ltb_not_leb (x y : float64) : ltb x y = true -> leb y x = false.
Proof.
  unfold ltb, leb, SFltb, SFleb. rewrite (compare_antisym x y).
  destruct (SFcompare x y) as [[ | | ] | ]; simpl; congruence.
Qed.

Lemma ltb_not_eqb (x y : float64) : ltb x y = true -> eqb x y = false.
Proof.
  unfold ltb, eqb, SFltb, SFeqb.
  destruct (SFcompare x y) as [[ | | ] | ]; congruence.
Qed.

Lemma ltb_not_nan (x y : float64) :
  ltb x y = true -> is_nan x = false /\ is_nan y = false.
Proof. intros H. now apply leb_not_nan, ltb_leb. Qed.

(** A number below a number that is at most a third is below the third. *)
Lemma leb_ltb_leb_trans (x y z t : float64) :
  leb x y = true -> ltb y z = true -> leb z t = true -> ltb x t = true.
Proof.
  intros Hxy Hyz Hzt.
  destruct (leb_not_nan _ _ Hxy) as [Hx _].
  destruct (leb_not_nan _ _ Hzt) as [_ Ht].
  destruct (ltb x t) eqn:Hlt; [reflexivity | ].
  pose proof (not_ltb_leb t x Ht Hx Hlt) as Htx.
  pose proof (leb_trans _ _ _ (leb_trans _ _ _ Hzt Htx) Hxy) as Hzy.
  now rewrite (ltb_not_leb _ _ Hyz) in Hzy.
Qed.

(** ** Facts about masks and element-wise operations *)

Lemma map2_map {A B C D : Type} (f : B -> C -> D) (g : A -> B) (h : A -> C)
    (l : list A) :
  map2 f (map g l) (map h l) = map (fun x => f (g x) (h x)) l.
Proof.
  unfold map2. induction l as [ | x l IH]; simpl; [reflexivity | ].
  now rewrite IH.
Qed.

Lemma select_map {A B : Type} (f : A -> B) (mask : list bool) (l : list A) :
  select mask (map f l) = map f (select mask l).
Proof.
  revert l. induction mask as [ | b mask IH]; intros [ | x l]; simpl;
    try reflexivity.
  destruct b; simpl; now rewrite IH.
Qed.

Lemma select_filter {A : Type} (p : A -> bool) (l : list A) :
  select (map p l) l = filter p l.
Proof.
  induction l as [ | x l IH]; simpl; [reflexivity | ].
  destruct (p x); now rewrite IH.
Qed.

Lemma select_all {A : Type} (l : list A) (mask : list bool) :
  List.length mask = List.length l ->
  Forall (fun b => b = true) mask ->
  select mask l = l.
Proof.
  revert l. induction mask as [ | b mask IH]; intros [ | x l] Hlen Hall;
    simpl in *; try reflexivity; try discriminate.
  inversion Hall; subst. f_equal. apply IH; [lia | assumption].
Qed.

Lemma map_eq_pointwise {A B : Type} (f g : A -> B) (l : list A) :
  map f l = map g l -> Forall (fun x => f x = g x) l.
Proof.
  induction l as [ | x l IH]; simpl; intros Heq; constructor.
  - now inversion Heq.
  - apply IH. now inversion Heq.
Qed.

(** ** Facts about the parts of the script *)

Lemma bind_done {A B : Type} (m : script A) (k : A -> script B)
    (out : list element) (b : B) :
  bind m k = (out, Done b) ->
  exists a out1 out2,
    m = (out1, Done a) /\ k a = (out2, Done b) /\ out = out1 ++ out2.
Proof.
  unfold bind. destruct m as [out1 [a | | e]]; try discriminate.
  destruct (k a) as [out2 o] eqn:Hk. intros Heq. inversion Heq; subst.
  now exists a, out1, out2.
Qed.

Lemma bind_ret_l {A B : Type} (a : A) (k : A -> script B) :
  bind (ret a) k = k a.
Proof. unfold bind, ret. simpl. now destruct (k a). Qed.

Lemma floats_SNum (xs : list float64) : floats (map SNum xs) = ret xs.
Proof.
  induction xs as [ | x xs IH]; simpl; [reflexivity | ].
  now rewrite IH.
Qed.

Lemma floats_inv (v : list scalar) (out : list element) (xs : list float64) :
  floats v = (out, Done xs) -> out = [] /\ v = map SNum xs.
Proof.
  revert out xs. induction v as [ | c v IH]; simpl; intros out xs Heq.
  - inversion Heq. now split.
  - destruct c; try discriminate.
    apply bind_done in Heq as (xs' & o1 & o2 & H1 & H2 & ->).
    inversion H2; subst. destruct (IH _ _ H1) as [-> ->]. now split.
Qed.

Lemma floats_number (v : list scalar) (xs : list float64) :
  floats v = ret xs -> xs = map number v /\ v = map SNum (map number v).
Proof.
  intros Heq. apply floats_inv in Heq as [_ ->].
  rewrite map_map. simpl. rewrite map_id. now split.
Qed.

Lemma series_op_ret (f : float64 -> float64 -> float64)
    (a b : list scalar) (xs ys : list float64) :
  floats a = ret xs -> floats b = ret ys ->
  series_op f a b = ret (map SNum (map2 f xs ys)).
Proof. intros Ha Hb. unfold series_op. now rewrite Ha, bind_ret_l, Hb. Qed.

Lemma series_cmp_ret (p : float64 -> bool) (a : list scalar)
    (xs : list float64) :
  floats a = ret xs -> series_cmp p a = ret (map p xs).
Proof. intros Ha. unfold series_cmp. now rewrite Ha. Qed.

(** ** Facts about labels: [find], [getitem] and [setitem] *)

Lemma filter_named_map {A B : Type} (f : A -> B) (name : string)
    (l : list (string * A)) :
  filter (named name) (map (fun c => (fst c, f (snd c))) l)
  = map (fun c => (fst c, f (snd c))) (filter (named name) l).
Proof.
  induction l as [ | c l IH]; cbn [filter map]; [reflexivity | ].
  change (named name (fst c, f (snd c))) with (named name c).
  destruct (named name c); cbn [map]; now rewrite IH.
Qed.

Lemma find_map {A B : Type} (f : A -> B) (name : string)
    (l : list (string * A)) :
  find name (map (fun c => (fst c, f (snd c))) l)
  = match find name l with
    | Missing => Missing
    | One a => One (f a)
    | Several => Several
    end.
Proof.
  unfold find.
  rewrite filter_named_map.
  destruct (filter (named name) l) as [ | c [ | c' r]]; reflexivity.
Qed.

Lemma find_One_In {A : Type} (name : string) (l : list (string * A)) (a : A) :
  find name l = One a -> In (name, a) l.
Proof.
  unfold find.
  destruct (filter (named name) l) as [ | c [ | c' r]] eqn:Hf;
    try discriminate.
  intros Heq. inversion Heq; subst.
  assert (Hin : In c (filter (named name) l)) by (rewrite Hf; now left).
  apply filter_In in Hin as [Hin Hname]. unfold named in Hname.
  apply String.eqb_eq in Hname. destruct c as [n a]; simpl in *. now subst.
Qed.

Lemma filter_named_none {A : Type} (name : string) (l : list (string * A)) :
  existsb (String.eqb name) (map fst l) = false ->
  filter (named name) l = [].
Proof.
  induction l as [ | c l IH]; simpl; [reflexivity | ].
  intros Hex. apply orb_false_iff in Hex as [Hc Hl].
  unfold named at 1. rewrite String.eqb_sym, Hc. now apply IH.
Qed.

Lemma filter_named_unique {A : Type} (name : string)
    (l : list (string * A)) :
  NoDup (map fst l) ->
  existsb (String.eqb name) (map fst l) = true ->
  exists c, filter (named name) l = [c].
Proof.
  induction l as [ | c l IH]; simpl; [discriminate | ].
  intros Hnd Hex. inversion Hnd as [ | ? ? Hnotin Hnd']; subst.
  unfold named at 1. rewrite String.eqb_sym.
  destruct (String.eqb name (fst c)) eqn:Hc.
  - exists c. f_equal. apply filter_named_none.
    apply String.eqb_eq in Hc. subst name.
    destruct (existsb (String.eqb (fst c)) (map fst l)) eqn:Hex';
      [ | reflexivity].
    apply existsb_exists in Hex' as (n & Hin & Hn).
    apply String.eqb_eq in Hn. subst n. contradiction.
  - simpl in Hex. now apply IH.
Qed.

Lemma filter_named_replace (name other : string) (v : list scalar)
    (cols : list (string * list scalar)) :
  filter (named other) (replace_column name v cols)
  = if String.eqb name other
    then map (fun _ => (name, v)) (filter (named name) cols)
    else filter (named other) cols.
Proof.
  induction cols as [ | c cols IH]; cbn [replace_column filter map].
  - now destruct (String.eqb name other).
  - change (named other c) with (String.eqb (fst c) other).
    change (named name c) with (String.eqb (fst c) name).
    destruct (String.eqb (fst c) name) eqn:Hc.
    + apply String.eqb_eq in Hc. subst name.
      change (named other (fst c, v)) with (String.eqb (fst c) other).
      rewrite IH. destruct (String.eqb (fst c) other); reflexivity.
    + change (named other c) with (String.eqb (fst c) other).
      rewrite IH. destruct (String.eqb name other) eqn:Hno; [ | reflexivity].
      apply String.eqb_eq in Hno. subst other. now rewrite Hc.
Qed.

Lemma names_replace (name : string) (v : list scalar)
    (cols : list (string * list scalar)) :
  map fst (replace_column name v cols) = map fst cols.
Proof.
  induction cols as [ | c cols IH]; simpl; [reflexivity | ].
  rewrite IH. destruct (String.eqb (fst c) name) eqn:Hc; [ | reflexivity].
  apply String.eqb_eq in Hc. now subst.
Qed.

Lemma getitem_setitem_same (df : frame) (name : string) (v : list scalar) :
  NoDup (names df) -> getitem (setitem df name v) name = ret v.
Proof.
  intros Hnd. unfold getitem, find, setitem, names in *; simpl.
  destruct (existsb (String.eqb name) (map fst (columns df))) eqn:Hex.
  - rewrite filter_named_replace, String.eqb_refl.
    destruct (filter_named_unique name _ Hnd Hex) as [c ->]. reflexivity.
  - rewrite filter_app, (filter_named_none _ _ Hex). simpl.
    unfold named; simpl. now rewrite String.eqb_refl.
Qed.

Lemma getitem_setitem_other (df : frame) (name other : string)
    (v : list scalar) :
  name <> other -> getitem (setitem df name v) other = getitem df other.
Proof.
  intros Hne. apply String.eqb_neq in Hne.
  unfold getitem, find, setitem, names; simpl.
  destruct (existsb (String.eqb name) (map fst (columns df))).
  - now rewrite filter_named_replace, Hne.
  - rewrite filter_app. simpl. unfold named at 2; simpl. rewrite Hne.
    now rewrite app_nil_r.
Qed.

Lemma NoDup_setitem (df : frame) (name : string) (v : list scalar) :
  NoDup (names df) -> NoDup (names (setitem df name v)).
Proof.
  intros Hnd. unfold setitem, names in *; simpl.
  destruct (existsb (String.eqb name) (map fst (columns df))) eqn:Hex.
  - now rewrite names_replace.
  - rewrite map_app. simpl. apply NoDup_app; [assumption | | ].
    + constructor; [intros [] | constructor].
    + intros n Hin [<- | []].
      assert (Hex' : existsb (String.eqb name) (map fst (columns df)) = true).
      { apply existsb_exists. exists name. split; [assumption | ].
        apply String.eqb_refl. }
      congruence.
Qed.

Lemma aligned_setitem (df : frame) (name : string) (v : list scalar) :
  aligned df -> List.length v = List.length (index df) ->
  aligned (setitem df name v).
Proof.
  intros Hal Hlen. unfold aligned, setitem in *; simpl.
  destruct (existsb (String.eqb name) (names df)).
  - induction Hal as [ | c cols Hc Hal IH]; simpl; constructor; auto.
    now destruct (String.eqb (fst c) name).
  - apply Forall_app. split; [assumption | ]. now constructor.
Qed.

(** ** Facts about rows *)

Lemma column_inv (df : frame) (name : string) (v : list scalar) :
  column df name v -> find name (columns df) = One v.
Proof.
  unfold column, getitem. destruct (find name (columns df)); try discriminate.
  intros Heq. now inversion Heq.
Qed.

Lemma column_intro (df : frame) (name : string) (v : list scalar) :
  find name (columns df) = One v -> column df name v.
Proof. unfold column, getitem. now intros ->. Qed.

Lemma cells_of_column (name : string) (idx : list nat) :
  forall (cols : list (string * list scalar)) (v : list scalar),
    find name cols = One v ->
    Forall (fun c => List.length (snd c) = List.length idx) cols ->
    map (cell name) (rows_of idx cols) = v.
Proof.
  induction idx as [ | label idx IH]; intros cols v Hfind Hal.
  - apply find_One_In in Hfind. rewrite Forall_forall in Hal.
    apply Hal in Hfind. simpl in Hfind. now destruct v.
  - pose proof (find_One_In _ _ _ Hfind) as Hin.
    rewrite Forall_forall in Hal. pose proof (Hal _ Hin) as Hlen.
    destruct v as [ | x v]; [discriminate | ]. simpl. f_equal.
    + unfold cell; simpl. now rewrite find_map, Hfind.
    + apply IH.
      * now rewrite find_map, Hfind.
      * rewrite Forall_forall. intros c Hc.
        apply in_map_iff in Hc as (c' & <- & Hc'). simpl.
        apply Hal in Hc'. simpl in Hc'. destruct (snd c'); simpl in *; lia.
Qed.

Lemma column_cells (df : frame) (name : string) (v : list scalar) :
  aligned df -> column df name v -> map (cell name) (rows df) = v.
Proof.
  intros Hal Hcol. apply cells_of_column; [now apply column_inv | exact Hal].
Qed.

Lemma rows_of_select (mask : list bool) :
  forall (idx : list nat) (cols : list (string * list scalar)),
    Forall (fun c => List.length (snd c) = List.length idx) cols ->
    rows_of (select mask idx)
            (map (fun c => (fst c, select mask (snd c))) cols)
    = select mask (rows_of idx cols).
Proof.
  induction mask as [ | b mask IH]; intros idx cols Hal.
  - destruct idx; reflexivity.
  - destruct idx as [ | label idx]; [reflexivity | ].
    assert (Htl : Forall (fun c => List.length (snd c) = List.length idx)
                    (map (fun c => (fst c, tl (snd c))) cols)).
    { rewrite Forall_forall in *. intros c Hc.
      apply in_map_iff in Hc as (c' & <- & Hc'). simpl.
      apply Hal in Hc'. simpl in Hc'. destruct (snd c'); simpl in *; lia. }
    assert (Hsel : map (fun c => (fst c, select mask (snd c)))
                     (map (fun c => (fst c, tl (snd c))) cols)
                   = map (fun c => (fst c, select mask (tl (snd c)))) cols)
      by now rewrite map_map.
    destruct b; simpl.
    + f_equal.
      * f_equal. rewrite map_map. apply map_ext_in. intros c Hc. simpl.
        rewrite Forall_forall in Hal. apply Hal in Hc. simpl in Hc.
        now destruct (snd c).
      * rewrite <- (IH idx _ Htl), Hsel. f_equal. rewrite map_map.
        apply map_ext_in. intros c Hc. simpl.
        rewrite Forall_forall in Hal. apply Hal in Hc. simpl in Hc.
        now destruct (snd c).
    + rewrite <- (IH idx _ Htl), Hsel. f_equal.
      apply map_ext_in. intros c Hc.
      rewrite Forall_forall in Hal. apply Hal in Hc. simpl in Hc.
      now destruct (snd c).
Qed.

Lemma rows_loc (mask : list bool) (df : frame) :
  aligned df -> rows (loc mask df) = select mask (rows df).
Proof. intros Hal. unfold rows, loc; simpl. now apply rows_of_select. Qed.

Lemma rows_length (idx : list nat) :
  forall cols, List.length (rows_of idx cols) = List.length idx.
Proof. induction idx; intros cols; simpl; auto. Qed.

Lemma column_loc (mask : list bool) (df : frame) (name : string)
    (v : list scalar) :
  column df name v -> column (loc mask df) name (select mask v).
Proof.
  intros Hcol. apply column_intro. unfold loc; simpl.
  now rewrite find_map, (column_inv _ _ _ Hcol).
Qed.

Lemma column_length (df : frame) (name : string) (v : list scalar) :
  aligned df -> column df name v ->
  List.length v = List.length (index df).
Proof.
  intros Hal Hcol. apply column_inv, find_One_In in Hcol.
  unfold aligned in Hal. rewrite Forall_forall in Hal.
  now apply Hal in Hcol.
Qed.

Lemma select_length {A B : Type} (mask : list bool) :
  forall (l : list A) (l' : list B),
    List.length l = List.length l' ->
    List.length (select mask l) = List.length (select mask l').
Proof.
  induction mask as [ | b mask IH]; intros [ | x l] [ | y l'] Hlen;
    simpl in *; try reflexivity; try discriminate.
  destruct b; simpl; [f_equal | ]; apply IH; lia.
Qed.

Lemma aligned_loc (mask : list bool) (df : frame) :
  aligned df -> aligned (loc mask df).
Proof.
  unfold aligned, loc; simpl. intros Hal. rewrite Forall_forall in *.
  intros c Hc. apply in_map_iff in Hc as (c' & <- & Hc'). simpl.
  apply select_length. now apply Hal.
Qed.

(** ** The derived columns *)

Lemma map2_length {A B C : Type} (f : A -> B -> C) (a : list A) (b : list B) :
  List.length a = List.length b ->
  List.length (map2 f a b) = List.length a.
Proof.
  intros Hlen. unfold map2. rewrite length_map, length_combine. lia.
Qed.

Lemma numeric_length (df : frame) (name : string) (v : list scalar)
    (xs : list float64) :
  aligned df -> column df name v -> floats v = ret xs ->
  List.length xs = List.length (index df).
Proof.
  intros Hal Hcol Hfl. rewrite <- (column_length _ _ _ Hal Hcol).
  apply floats_inv in Hfl as [_ ->]. now rewrite length_map.
Qed.

Lemma numbers_of_column (df : frame) (name : string) (v : list scalar)
    (xs : list float64) :
  aligned df -> column df name v -> floats v = ret xs ->
  xs = map (num name) (rows df)
  /\ Forall (fun r => cell name r = SNum (num name r)) (rows df).
Proof.
  intros Hal Hcol Hfl. pose proof (column_cells _ _ _ Hal Hcol) as Hcells.
  apply floats_number in Hfl as [Hxs Hv]. split.
  - rewrite Hxs, <- Hcells, map_map. reflexivity.
  - apply map_eq_pointwise. rewrite Hcells. rewrite Hv at 1.
    rewrite <- Hcells at 1. now rewrite !map_map.
Qed.

(** Where the revenue is zero the margin is [0/0], or NaN already. *)
Lemma margin_of_zero_revenue (price quantity discount : float64) :
  eqb (revenue_of price quantity) zero = true ->
  is_nan (profit_margin_of price quantity discount) = true.
Proof.
  unfold profit_margin_of, profit_of, discount_value_of.
  generalize (revenue_of price quantity). intros r.
  destruct r as [s | s | | s m e]; simpl; try discriminate.
  - intros _. destruct discount as [s' | s' | | s' m' e']; simpl;
      try reflexivity; destruct s, s'; reflexivity.
  - destruct s; discriminate.
  - destruct s; discriminate.
Qed.

Ltac lookup :=
  repeat first
    [ rewrite bind_ret_l
    | rewrite floats_SNum
    | rewrite getitem_setitem_same by (repeat apply NoDup_setitem; assumption)
    | rewrite getitem_setitem_other by discriminate ].

Lemma feature_engineering_ret (df : frame) (p q d : list scalar)
    (ps qs ds : list float64) :
  NoDup (names df) ->
  column df "price" p -> column df "quantity" q -> column df "discount" d ->
  floats p = ret ps -> floats q = ret qs -> floats d = ret ds ->
  feature_engineering df = ret (derive ps qs ds df).
Proof.
  intros Hnd Hp Hq Hd Hps Hqs Hds. unfold column in *.
  unfold feature_engineering, derive, series_op.
  rewrite Hp, bind_ret_l, Hq, bind_ret_l, Hps, bind_ret_l, Hqs. lookup.
  rewrite Hd. lookup. rewrite Hds. lookup. reflexivity.
Qed.

Lemma derive_columns (df : frame) (p q d : list scalar)
    (ps qs ds : list float64) :
  aligned df -> NoDup (names df) ->
  column df "price" p -> column df "quantity" q -> column df "discount" d ->
  floats p = ret ps -> floats q = ret qs -> floats d = ret ds ->
  let revenue := map2 mul ps qs in
  let discount_value := map2 mul revenue ds in
  let profit := map2 sub revenue discount_value in
  let profit_margin := map2 div profit revenue in
  let df' := derive ps qs ds df in
  aligned df'
  /\ (column df' "price" p /\ column df' "quantity" q
      /\ column df' "discount" d)
  /\ column df' "revenue" (map SNum revenue)
  /\ column df' "discount_value" (map SNum discount_value)
  /\ column df' "profit" (map SNum profit)
  /\ column df' "profit_margin" (map SNum profit_margin).
Proof.
  intros Hal Hnd Hp Hq Hd Hps Hqs Hds.
  pose proof (numeric_length _ _ _ _ Hal Hp Hps) as Lp.
  pose proof (numeric_length _ _ _ _ Hal Hq Hqs) as Lq.
  pose proof (numeric_length _ _ _ _ Hal Hd Hds) as Ld.
  cbv zeta. unfold derive, column in *.
  assert (L1 : List.length (map2 mul ps qs) = List.length (index df))
    by (rewrite map2_length; lia).
  assert (L2 : List.length (map2 mul (map2 mul ps qs) ds)
               = List.length (index df))
    by (rewrite map2_length; lia).
  assert (L3 : List.length (map2 sub (map2 mul ps qs)
                              (map2 mul (map2 mul ps qs) ds))
               = List.length (index df))
    by (rewrite map2_length; lia).
  assert (L4 : List.length (map2 div
                              (map2 sub (map2 mul ps qs)
                                 (map2 mul (map2 mul ps qs) ds))
                              (map2 mul ps qs))
               = List.length (index df))
    by (rewrite map2_length; lia).
  split.
  - repeat apply aligned_setitem; simpl; rewrite ?length_map; assumption.
  - repeat split; lookup; auto.
Qed.

Lemma Forall_and4 {A : Type} (P1 P2 P3 P4 : A -> Prop) (l : list A) :
  Forall P1 l -> Forall P2 l -> Forall P3 l -> Forall P4 l ->
  Forall (fun x => P1 x /\ P2 x /\ P3 x /\ P4 x) l.
Proof.
  rewrite !Forall_forall. intros H1 H2 H3 H4 x Hx. auto.
Qed.

Lemma derive_rows (df : frame) (p q d : list scalar)
    (ps qs ds : list float64) :
  aligned df -> NoDup (names df) ->
  column df "price" p -> column df "quantity" q -> column df "discount" d ->
  floats p = ret ps -> floats q = ret qs -> floats d = ret ds ->
  Forall derived (rows (derive ps qs ds df)).
Proof.
  intros Hal Hnd Hp Hq Hd Hps Hqs Hds.
  destruct (derive_columns _ _ _ _ _ _ _ Hal Hnd Hp Hq Hd Hps Hqs Hds)
    as (Hal' & (Hp' & Hq' & Hd') & Hr & Hv & Hpr & Hm).
  destruct (numbers_of_column _ _ _ _ Hal' Hp' Hps) as [Eps _].
  destruct (numbers_of_column _ _ _ _ Hal' Hq' Hqs) as [Eqs _].
  destruct (numbers_of_column _ _ _ _ Hal' Hd' Hds) as [Eds _].
  apply (column_cells _ _ _ Hal') in Hr, Hv, Hpr, Hm.
  remember (rows (derive ps qs ds df)) as rs eqn:Hrs. clear Hrs.
  clear Hal' Hp' Hq' Hd' Hps Hqs Hds. subst ps qs ds.
  repeat rewrite map2_map in Hr. repeat rewrite map2_map in Hv.
  repeat rewrite map2_map in Hpr. repeat rewrite map2_map in Hm.
  rewrite map_map in Hr, Hv, Hpr, Hm.
  apply map_eq_pointwise in Hr, Hv, Hpr, Hm.
  unfold derived. now apply Forall_and4.
Qed.

Lemma nan_not_finite (x : float64) : is_nan x = true -> is_finite x = false.
Proof. now destruct x. Qed.

Ltac numeric_here :=
  eexists; eexists; split; [reflexivity | reflexivity].

Ltac nodup_here :=
  repeat (constructor; [simpl; intuition discriminate | ]); constructor.

(** C1. On a table with numeric price, quantity and discount, lines 49-52
    return a table with the same labels in which every row satisfies
    revenue = price * quantity, discount_value = revenue * discount,
    profit = revenue - discount_value and profit_margin = profit / revenue;
    the three source cells of the rows are untouched, and the margin of a row
    whose revenue is zero is not finite. *)
Theorem derived_columns (df : frame) :
  priced df ->
  exists df',
    feature_engineering df = ret df'
    /\ index df' = index df
    /\ map (cell "price") (rows df') = map (cell "price") (rows df)
    /\ map (cell "quantity") (rows df') = map (cell "quantity") (rows df)
    /\ map (cell "discount") (rows df') = map (cell "discount") (rows df)
    /\ Forall derived (rows df')
    /\ Forall (fun r => eqb (num "revenue" r) zero = true ->
                        is_finite (num "profit_margin" r) = false)
         (rows df').
Proof.
  intros (Hal & Hnd & (p & ps & Hp & Hps) & (q & qs & Hq & Hqs)
          & (d & ds & Hd & Hds)).
  exists (derive ps qs ds df).
  destruct (derive_columns _ _ _ _ _ _ _ Hal Hnd Hp Hq Hd Hps Hqs Hds)
    as (Hal' & (Hp' & Hq' & Hd') & _).
  pose proof (derive_rows _ _ _ _ _ _ _ Hal Hnd Hp Hq Hd Hps Hqs Hds) as Hrows.
  split; [now apply feature_engineering_ret with (p := p) (q := q) (d := d) | ].
  split; [reflexivity | ].
  rewrite (column_cells _ _ _ Hal' Hp'), (column_cells _ _ _ Hal Hp).
  rewrite (column_cells _ _ _ Hal' Hq'), (column_cells _ _ _ Hal Hq).
  rewrite (column_cells _ _ _ Hal' Hd'), (column_cells _ _ _ Hal Hd).
  repeat (split; [reflexivity | ]). split; [assumption | ].
  rewrite Forall_forall in *. intros r Hr Hzero.
  destruct (Hrows r Hr) as (Hrev & _ & _ & Hmargin).
  unfold num in *. rewrite Hmargin. rewrite Hrev in Hzero. simpl in *.
  now apply nan_not_finite, margin_of_zero_revenue.
Qed.

Lemma two_records_priced : priced two_records.
Proof.
  repeat split; try numeric_here.
  - repeat constructor.
  - nodup_here.
Qed.

Lemma derived_columns_witness :
  exists df',
    feature_engineering two_records = ret df'
    /\ index df' = index two_records
    /\ map (cell "price") (rows df') = map (cell "price") (rows two_records)
    /\ map (cell "quantity") (rows df')
       = map (cell "quantity") (rows two_records)
    /\ map (cell "discount") (rows df')
       = map (cell "discount") (rows two_records)
    /\ Forall derived (rows df')
    /\ Forall (fun r => eqb (num "revenue" r) zero = true ->
                        is_finite (num "profit_margin" r) = false)
         (rows df').
Proof. apply (derived_columns two_records). exact two_records_priced. Defined.

(** ** The Filtered View *)

Lemma filter_mask_rows (df : frame) (st : filter_state) :
  prepared df -> filter_mask df st = ret (map (admits st) (rows df)).
Proof.
  intros (Hal & (c & Hc) & (g & Hg) & (d & xs & Hd & Hxs) & _).
  destruct (numbers_of_column _ _ _ _ Hal Hd Hxs) as [Exs _].
  pose proof (column_cells _ _ _ Hal Hc) as Ec.
  pose proof (column_cells _ _ _ Hal Hg) as Eg.
  unfold filter_mask. unfold column in Hc, Hg, Hd.
  rewrite Hc, Hg, Hd, !bind_ret_l.
  rewrite (series_cmp_ret _ _ _ Hxs), !bind_ret_l.
  rewrite (series_cmp_ret _ _ _ Hxs), !bind_ret_l.
  unfold and_mask, isin. rewrite <- Ec, <- Eg, Exs, !map_map.
  repeat rewrite map2_map. reflexivity.
Qed.

Lemma apply_filters_rows (df : frame) (st : filter_state) :
  prepared df ->
  exists filtered_df,
    apply_filters df st = ret filtered_df
    /\ filtered_df = loc (map (admits st) (rows df)) df
    /\ rows filtered_df = filter (admits st) (rows df).
Proof.
  intros Hdf. exists (loc (map (admits st) (rows df)) df).
  unfold apply_filters. rewrite (filter_mask_rows _ _ Hdf), bind_ret_l.
  repeat split. destruct Hdf as (Hal & _).
  now rewrite rows_loc, select_filter.
Qed.

Lemma numeric_loc (mask : list bool) (df : frame) (name : string) :
  numeric df name -> numeric (loc mask df) name.
Proof.
  intros (v & xs & Hv & Hxs). exists (select mask v), (select mask xs). split.
  - now apply column_loc.
  - apply floats_inv in Hxs as [_ ->]. rewrite select_map. apply floats_SNum.
Qed.

Lemma present_loc (mask : list bool) (df : frame) (name : string) :
  present df name -> present (loc mask df) name.
Proof. intros (v & Hv). exists (select mask v). now apply column_loc. Qed.

Lemma prepared_loc (mask : list bool) (df : frame) :
  prepared df -> prepared (loc mask df).
Proof.
  intros (Hal & Hc & Hg & Hd & Hq & Hr & Hp & Hm).
  repeat split; auto using aligned_loc, numeric_loc, present_loc.
Qed.

(** ** The default state of the filters *)

Lemma same_refl (c : scalar) : same c c = true.
Proof.
  destruct c as [x | s | t | ]; simpl.
  - destruct (is_nan x) eqn:Hx; [reflexivity | ]. now apply eqb_refl.
  - apply String.eqb_refl.
  - apply Z.eqb_refl.
  - reflexivity.
Qed.

Lemma distinct_from_covers {A : Type} (eq : A -> A -> bool) :
  (forall x, eq x x = true) ->
  forall (l seen : list A) (x : A),
    In x l ->
    existsb (eq x) seen || existsb (eq x) (distinct_from eq seen l) = true.
Proof.
  intros Hrefl. induction l as [ | y l IH]; intros seen x Hin; [easy | ].
  simpl. destruct Hin as [-> | Hin].
  - destruct (existsb (eq x) seen) eqn:Hseen; [reflexivity | ].
    simpl. now rewrite Hrefl.
  - destruct (existsb (eq y) seen) eqn:Hseen.
    + now apply IH.
    + specialize (IH (y :: seen) x Hin). simpl in *.
      destruct (eq x y), (existsb (eq x) seen); simpl in *; auto.
Qed.


Lemma fold_min_le (r : list float64) :
  forall acc,
    is_nan acc = false ->
    Forall (fun y => is_nan y = false) r ->
    let m := fold_left (fun m y => if ltb y m then y else m) r acc in
    leb m acc = true /\ Forall (fun y => leb m y = true) r.
Proof.
  induction r as [ | y r IH]; intros acc Hacc Hr; simpl.
  - split; [now apply leb_refl | constructor].
  - inversion Hr as [ | ? ? Hy Hr']; subst.
    destruct (ltb y acc) eqn:Hlt.
    + destruct (IH y Hy Hr') as [Hm Hall]. split; [ | now constructor].
      apply leb_trans with y; [assumption | now apply ltb_leb].
    + destruct (IH acc Hacc Hr') as [Hm Hall]. split; [assumption | ].
      constructor; [ | assumption].
      apply leb_trans with acc; [assumption | now apply not_ltb_leb].
Qed.

Lemma fold_max_ge (r : list float64) :
  forall acc,
    is_nan acc = false ->
    Forall (fun y => is_nan y = false) r ->
    let m := fold_left (fun m y => if ltb m y then y else m) r acc in
    leb acc m = true /\ Forall (fun y => leb y m = true) r.
Proof.
  induction r as [ | y r IH]; intros acc Hacc Hr; simpl.
  - split; [now apply leb_refl | constructor].
  - inversion Hr as [ | ? ? Hy Hr']; subst.
    destruct (ltb acc y) eqn:Hlt.
    + destruct (IH y Hy Hr') as [Hm Hall]. split; [ | now constructor].
      apply leb_trans with y; [now apply ltb_leb | assumption].
    + destruct (IH acc Hacc Hr') as [Hm Hall]. split; [assumption | ].
      constructor; [ | assumption].
      apply leb_trans with acc; [now apply not_ltb_leb | assumption].
Qed.

Lemma dropna_spec (xs : list float64) (x : float64) :
  In x (dropna xs) <-> In x xs /\ is_nan x = false.
Proof.
  unfold dropna. rewrite filter_In. now rewrite negb_true_iff.
Qed.

Lemma dropna_numbers (xs : list float64) :
  Forall (fun y => is_nan y = false) (dropna xs).
Proof. rewrite Forall_forall. intros x Hx. now apply dropna_spec in Hx. Qed.

Lemma nanmin_le (xs : list float64) (x : float64) :
  In x xs -> is_nan x = false -> leb (nanmin xs) x = true.
Proof.
  intros Hin Hx. assert (Hd : In x (dropna xs)) by now apply dropna_spec.
  pose proof (dropna_numbers xs) as Hnum. unfold nanmin.
  destruct (dropna xs) as [ | y r]; [easy | ].
  inversion Hnum as [ | ? ? Hy Hr]; subst.
  destruct (fold_min_le r y Hy Hr) as [Hm Hall].
  destruct Hd as [<- | Hd]; [assumption | ].
  rewrite Forall_forall in Hall. now apply Hall.
Qed.

Lemma nanmax_ge (xs : list float64) (x : float64) :
  In x xs -> is_nan x = false -> leb x (nanmax xs) = true.
Proof.
  intros Hin Hx. assert (Hd : In x (dropna xs)) by now apply dropna_spec.
  pose proof (dropna_numbers xs) as Hnum. unfold nanmax.
  destruct (dropna xs) as [ | y r]; [easy | ].
  inversion Hnum as [ | ? ? Hy Hr]; subst.
  destruct (fold_max_ge r y Hy Hr) as [Hm Hall].
  destruct Hd as [<- | Hd]; [assumption | ].
  rewrite Forall_forall in Hall. now apply Hall.
Qed.

Lemma fold_choice_In {A : Type} (p : A -> A -> bool) (r : list A) (x : A) :
  In (fold_left (fun m y => if p m y then y else m) r x) (x :: r).
Proof.
  revert x. induction r as [ | y r IH]; intros x; simpl; [now left | ].
  destruct (IH (if p x y then y else x)) as [<- | Hin].
  - destruct (p x y); auto.
  - auto.
Qed.

Lemma nanmin_In (xs : list float64) :
  dropna xs <> [] -> In (nanmin xs) (dropna xs).
Proof.
  unfold nanmin. destruct (dropna xs) as [ | x r]; [easy | intros _].
  apply (fold_choice_In (fun m y => ltb y m)).
Qed.

Lemma nanmax_In (xs : list float64) :
  dropna xs <> [] -> In (nanmax xs) (dropna xs).
Proof.
  unfold nanmax. destruct (dropna xs) as [ | x r]; [easy | intros _].
  apply (fold_choice_In (fun m y => ltb m y)).
Qed.


Lemma result_bind_done {A B : Type} (m : script A) (k : A -> script B)
    (b : B) :
  result (bind m k) = Done b ->
  exists out a, m = (out, Done a) /\ result (k a) = Done b.
Proof.
  destruct m as [out [a | | e]]; unfold bind, result; simpl;
    try discriminate.
  intros H. exists out, a. split; [reflexivity | ].
  now destruct (k a).
Qed.

(** The sidebar up to the slider, on a table that has the three columns. *)
Lemma sidebar_eq (w : env) (df : frame) (c g d : list scalar)
    (xs : list float64) :
  column df "category" c -> column df "region" g ->
  column df "discount" d -> floats d = ret xs ->
  sidebar w df
  = bind (bind ([SidebarHeader "Filters";
                 MultiselectWidget "Select Categories:" (unique c) (unique c);
                 MultiselectWidget "Select Regions:" (unique g) (unique g)],
                Done tt)
            (fun _ =>
               slider_widget w "Select Discount Range:" (nanmin xs)
                 (nanmax xs) (nanmin xs, nanmax xs)))
      (fun range => ret (chosen w c g range)).
Proof.
  unfold column. intros Hc Hg Hd Hxs.
  unfold sidebar, column_min, column_max. rewrite Hc, Hg, Hd.
  cbn [bind ret emit]. rewrite Hxs. cbn [bind ret emit app].
  now destruct (slider_widget w "Select Discount Range:" (nanmin xs)
                  (nanmax xs) (nanmin xs, nanmax xs)) as [out [range | | e]].
Qed.

Lemma sidebar_ret (w : env) (df : frame) (c g d : list scalar)
    (xs : list float64) (range : float64 * float64) :
  column df "category" c -> column df "region" g ->
  column df "discount" d -> floats d = ret xs ->
  eqb (nanmin xs) (nanmax xs) = false ->
  slider w "Select Discount Range:" (nanmin xs) (nanmax xs)
    (nanmin xs, nanmax xs) = Some range ->
  sidebar w df
  = ([SidebarHeader "Filters";
      MultiselectWidget "Select Categories:" (unique c) (unique c);
      MultiselectWidget "Select Regions:" (unique g) (unique g);
      SliderWidget "Select Discount Range:" (nanmin xs) (nanmax xs)
        (nanmin xs, nanmax xs)],
     Done (chosen w c g range)).
Proof.
  intros Hc Hg Hd Hxs Hne Hw.
  rewrite (sidebar_eq w df c g d xs Hc Hg Hd Hxs).
  unfold slider_widget. now rewrite Hne, Hw.
Qed.


Lemma sidebar_raises (w : env) (df : frame) (c g d : list scalar)
    (xs : list float64) :
  column df "category" c -> column df "region" g ->
  column df "discount" d -> floats d = ret xs ->
  eqb (nanmin xs) (nanmax xs) = true ->
  sidebar w df
  = ([SidebarHeader "Filters";
      MultiselectWidget "Select Categories:" (unique c) (unique c);
      MultiselectWidget "Select Regions:" (unique g) (unique g)],
     Raised (StreamlitError "Select Discount Range:")).
Proof.
  intros Hc Hg Hd Hxs He.
  rewrite (sidebar_eq w df c g d xs Hc Hg Hd Hxs).
  unfold slider_widget. now rewrite He.
Qed.

Lemma loc_all (mask : list bool) (df : frame) :
  aligned df ->
  List.length mask = List.length (index df) ->
  Forall (fun b => b = true) mask ->
  loc mask df = df.
Proof.
  intros Hal Hlen Hall. destruct df as [idx cols]. unfold loc, aligned in *.
  simpl in *. f_equal; [now apply select_all | ].
  induction Hal as [ | c cols Hc Hal IH]; simpl; [reflexivity | ].
  rewrite IH. f_equal. destruct c as [n v]; simpl in *. f_equal.
  apply select_all; [lia | assumption].
Qed.



(** When two discounts differ, the bounds of the slider are strictly
    ordered. *)
Lemma spread_bounds (df : frame) (d : list scalar) (xs : list float64) :
  aligned df -> column df "discount" d -> floats d = ret xs ->
  spread df -> ltb (nanmin xs) (nanmax xs) = true.
Proof.
  intros Hal Hd Hxs (r & r' & Hr & Hr' & Hlt).
  destruct (numbers_of_column _ _ _ _ Hal Hd Hxs) as [Exs _].
  destruct (ltb_not_nan _ _ Hlt) as [Hn Hn'].
  apply leb_ltb_leb_trans with (num "discount" r) (num "discount" r');
    [ | assumption | ].
  - apply nanmin_le; [rewrite Exs; now apply in_map | assumption].
  - apply nanmax_ge; [rewrite Exs; now apply in_map | assumption].
Qed.

(** When all the discounts that are not missing are equal, so are the bounds
    of the slider. *)
Lemma flat_bounds (df : frame) (d : list scalar) (xs : list float64) :
  aligned df -> column df "discount" d -> floats d = ret xs ->
  flat df -> eqb (nanmin xs) (nanmax xs) = true.
Proof.
  intros Hal Hd Hxs ((r & Hr & Hn) & Hall).
  destruct (numbers_of_column _ _ _ _ Hal Hd Hxs) as [Exs _].
  assert (Hne : dropna xs <> []).
  { intros He. assert (Hin : In (num "discount" r) (dropna xs)).
    { apply dropna_spec. split; [rewrite Exs; now apply in_map | assumption]. }
    now rewrite He in Hin. }
  pose proof (nanmin_In xs Hne) as Hmin. pose proof (nanmax_In xs Hne) as Hmax.
  apply dropna_spec in Hmin as [Hmin Hnmin].
  apply dropna_spec in Hmax as [Hmax Hnmax].
  rewrite Exs in Hmin, Hmax, Hnmin, Hnmax |- *.
  apply in_map_iff in Hmin as (r1 & E1 & H1).
  apply in_map_iff in Hmax as (r2 & E2 & H2).
  rewrite <- E1 in Hnmin |- *. rewrite <- E2 in Hnmax |- *.
  now apply Hall.
Qed.

Ltac prepared_here :=
  unfold prepared, aligned, numeric, present, column;
  repeat split;
  first [ eexists; eexists; split; reflexivity
        | eexists; reflexivity
        | repeat constructor ].

Lemma two_records_prepared : prepared (prepared_of two_records).
Proof. prepared_here. Qed.

Lemma missing_discount_prepared : prepared (prepared_of missing_discount).
Proof. prepared_here. Qed.

Lemma two_records_spread : spread (prepared_of two_records).
Proof.
  exists (nth 1 (rows (prepared_of two_records)) (O, [])),
         (nth 0 (rows (prepared_of two_records)) (O, [])).
  split; [right; left; reflexivity | ].
  split; [left; reflexivity | reflexivity].
Qed.

(** C2. For every state of the filters, lines 78-83 return the Filtered
    View, and its rows are exactly the rows of the table whose category is
    among the selected categories, whose region is among the selected regions
    and whose discount lies between the two ends of the range, ends
    included: the same rows, in the same order, with the same cells. *)
Theorem filtered_view_exact (df : frame) (st : filter_state) :
  prepared df ->
  exists filtered_df,
    apply_filters df st = ret filtered_df
    /\ rows filtered_df = filter (admits st) (rows df).
Proof.
  intros Hdf. destruct (apply_filters_rows df st Hdf) as (v & Hv & _ & Hrows).
  now exists v.
Qed.

Lemma filtered_view_exact_witness :
  exists filtered_df,
    apply_filters (prepared_of two_records) category_A = ret filtered_df
    /\ rows filtered_df
       = filter (admits category_A) (rows (prepared_of two_records)).
Proof.
  apply (filtered_view_exact (prepared_of two_records) category_A).
  exact two_records_prepared.
Defined.

Lemma nan_not_admitted (st : filter_state) (r : row) :
  is_nan (num "discount" r) = true -> admits st r = false.
Proof.
  intros Hnan. unfold admits. destruct (num "discount" r); try discriminate.
  rewrite leb_nan_l. simpl. now rewrite andb_false_r.
Qed.

(** C10. A row whose discount is missing (NaN) is in no Filtered View:
    neither in the view of any state of the filters, nor in any view a run
    computes from the controls of the sidebar, whatever the user selects and
    also when the controls are left at their defaults. *)
Theorem missing_discount_excluded (df : frame) (r : row) :
  prepared df ->
  In r (rows df) ->
  is_nan (num "discount" r) = true ->
  (forall st, exists filtered_df,
      apply_filters df st = ret filtered_df /\ ~ In r (rows filtered_df))
  /\ (forall w filtered_df,
        result (filtered_view w df) = Done filtered_df ->
        ~ In r (rows filtered_df)).
Proof.
  intros Hdf Hr Hnan.
  assert (Hall : forall st, exists filtered_df,
             apply_filters df st = ret filtered_df
             /\ ~ In r (rows filtered_df)).
  { intros st.
    destruct (apply_filters_rows df st Hdf) as (v & Hv & _ & Hrows).
    exists v. split; [assumption | ]. rewrite Hrows. intros Hin.
    apply filter_In in Hin as [_ Hadm].
    now rewrite nan_not_admitted in Hadm. }
  split; [exact Hall | ]. intros w filtered_df Hrun.
  unfold filtered_view in Hrun.
  apply result_bind_done in Hrun as (out & st & _ & Hrun).
  destruct (Hall st) as (v & Hv & Hnot). rewrite Hv in Hrun.
  now injection Hrun as <-.
Qed.

Lemma missing_discount_excluded_witness :
  let df := prepared_of missing_discount in
  let r := hd (O, []) (rows df) in
  (forall st, exists filtered_df,
      apply_filters df st = ret filtered_df /\ ~ In r (rows filtered_df))
  /\ (forall w filtered_df,
        result (filtered_view w df) = Done filtered_df ->
        ~ In r (rows filtered_df)).
Proof.
  apply (missing_discount_excluded (prepared_of missing_discount)).
  - exact missing_discount_prepared.
  - left. reflexivity.
  - reflexivity.
Defined.




(** ** The missing input file *)

(** C7. When the file does not exist the run shows the page header and the
    error message and is halted there: nothing is derived, filtered or drawn
    and no exception escapes. *)
Theorem missing_file_halts (unicode_strip_lower : string -> string)
    (parse_datetime : scalar -> option Z)
    (pearson : list float64 -> list float64 -> float64) (w : env) :
  read_csv w file_path = None ->
  dashboard unicode_strip_lower parse_datetime pearson w
  = ([PageConfig "E-Commerce Discount Analysis" "wide";
      Title "E-Commerce Discount Analysis Dashboard";
      Markdown
        "Analyze how discounts affect **sales, profit, and customer behavior** across categories and regions.";
      ErrorBox not_found],
     Stopped).
Proof.
  intros Hcsv. unfold dashboard, load_data. rewrite Hcsv. reflexivity.
Qed.

Lemma missing_file_halts_witness :
  dashboard no_unicode no_date no_correlation (untouched None)
  = ([PageConfig "E-Commerce Discount Analysis" "wide";
      Title "E-Commerce Discount Analysis Dashboard";
      Markdown
        "Analyze how discounts affect **sales, profit, and customer behavior** across categories and regions.";
      ErrorBox not_found],
     Stopped).
Proof.
  apply (missing_file_halts no_unicode no_date no_correlation (untouched None)).
  reflexivity.
Defined.

(** ** Means over a selection of rows *)

Lemma column_mean_loc (df : frame) (name : string) (p : row -> bool) :
  aligned df -> numeric df name ->
  column_mean (loc (map p (rows df)) df) name
  = ret (mean_of name (filter p (rows df))).
Proof.
  intros Hal (v & xs & Hv & Hxs).
  destruct (numbers_of_column _ _ _ _ Hal Hv Hxs) as [Exs _].
  pose proof (column_loc (map p (rows df)) _ _ _ Hv) as Hsel.
  unfold column in Hsel. unfold column_mean. rewrite Hsel, bind_ret_l.
  apply floats_inv in Hxs as [_ ->]. rewrite select_map, floats_SNum.
  rewrite bind_ret_l. unfold mean_of. rewrite Exs at 1.
  now rewrite select_map, select_filter.
Qed.

Lemma empty_loc (df : frame) (p : row -> bool) :
  aligned df -> columns df <> [] ->
  empty (loc (map p (rows df)) df) = true <-> filter p (rows df) = [].
Proof.
  intros Hal Hcols.
  assert (Hlen : List.length (index (loc (map p (rows df)) df))
                 = List.length (filter p (rows df))).
  { rewrite <- select_filter. unfold loc; simpl. apply select_length.
    unfold rows. now rewrite rows_length. }
  unfold empty. destruct (index (loc (map p (rows df)) df)) as [ | i idx].
  - split; [ | reflexivity]. intros _.
    now destruct (filter p (rows df)).
  - unfold loc; simpl. destruct (columns df) as [ | c cols]; [easy | ].
    simpl. split; [discriminate | ]. intros Hnil. rewrite Hnil in Hlen.
    discriminate.
Qed.

(** ** The comparison of discounted and non-discounted rows *)

Lemma prepared_columns (df : frame) : prepared df -> columns df <> [].
Proof.
  intros (_ & (c & Hc) & _). apply column_inv, find_One_In in Hc.
  intros Hnil. now rewrite Hnil in Hc.
Qed.

Lemma comparison_cases (filtered_df : frame) :
  prepared filtered_df ->
  comparison filtered_df
  = if negb (empty (loc (map (fun r => eqb (num "discount" r) zero)
                             (rows filtered_df)) filtered_df))
    then
      ([SuccessBox sales_boost_text
          (sales_boost (mean_of "quantity" (discounted_rows filtered_df))
             (mean_of "quantity" (non_discounted_rows filtered_df)));
        WarningBox profit_diff_text
          (profit_diff
             (mean_of "profit_margin" (discounted_rows filtered_df))
             (mean_of "profit_margin" (non_discounted_rows filtered_df)))],
       Done tt)
    else ([InfoBox cannot_compare], Done tt).
Proof.
  intros (Hal & _ & _ & Hdisc & Hq & _ & _ & Hm).
  pose proof Hdisc as (d & xs & Hd & Hxs).
  destruct (numbers_of_column _ _ _ _ Hal Hd Hxs) as [Exs _].
  unfold comparison. unfold column in Hd. rewrite Hd, !bind_ret_l.
  rewrite (series_cmp_ret _ _ _ Hxs), !bind_ret_l.
  assert (Eeq : series_eq zero d
                = map (fun r => eqb (num "discount" r) zero)
                    (rows filtered_df)).
  { apply floats_inv in Hxs as [_ ->]. unfold series_eq.
    rewrite Exs at 1. now rewrite !map_map. }
  assert (Egt : map (fun x => gtb x zero) xs
                = map (fun r => gtb (num "discount" r) zero)
                    (rows filtered_df)).
  { rewrite Exs at 1. now rewrite map_map. }
  rewrite Eeq, Egt.
  destruct (empty _); simpl; [reflexivity | ].
  rewrite !column_mean_loc by assumption. reflexivity.
Qed.

(** C8. The closing comparison shows the notice that nothing can be compared
    exactly when no row of the Filtered View has discount == 0, and then shows
    nothing else: neither [sales_boost] nor [profit_diff] is computed.
    Otherwise it shows sales_boost = (mean quantity of the discounted rows
    - mean quantity of the non-discounted rows) / mean quantity of the
    non-discounted rows * 100 and profit_diff = (mean margin of the discounted
    rows - mean margin of the non-discounted rows) * 100. *)
Theorem comparison_spec (filtered_df : frame) :
  prepared filtered_df ->
  (In (InfoBox cannot_compare) (shown (comparison filtered_df))
   <-> non_discounted_rows filtered_df = [])
  /\ (non_discounted_rows filtered_df = [] ->
      comparison filtered_df = ([InfoBox cannot_compare], Done tt))
  /\ (non_discounted_rows filtered_df <> [] ->
      comparison filtered_df
      = ([SuccessBox sales_boost_text
            (mul (div (sub (mean_of "quantity" (discounted_rows filtered_df))
                           (mean_of "quantity"
                              (non_discounted_rows filtered_df)))
                      (mean_of "quantity" (non_discounted_rows filtered_df)))
                 hundred);
          WarningBox profit_diff_text
            (mul (sub (mean_of "profit_margin" (discounted_rows filtered_df))
                      (mean_of "profit_margin"
                         (non_discounted_rows filtered_df)))
                 hundred)],
         Done tt)).
Proof.
  intros Hdf. pose proof (comparison_cases _ Hdf) as Hcmp.
  pose proof Hdf as (Hal & _).
  pose proof (empty_loc filtered_df
                (fun r => eqb (num "discount" r) zero) Hal
                (prepared_columns _ Hdf)) as Hempty.
  fold (non_discounted_rows filtered_df) in Hempty.
  destruct (empty _) eqn:He; simpl in Hcmp; rewrite Hcmp.
  - assert (Hnil : non_discounted_rows filtered_df = [])
      by now apply Hempty.
    repeat split; auto; try (now left); try contradiction.
  - assert (Hne : non_discounted_rows filtered_df <> []).
    { intros Hnil. apply Hempty in Hnil. discriminate. }
    repeat split; try contradiction; try reflexivity.
    simpl. intros [H | [H | []]]; discriminate.
Qed.

Lemma comparison_spec_witness :
  let filtered_df := prepared_of two_records in
  (In (InfoBox cannot_compare) (shown (comparison filtered_df))
   <-> non_discounted_rows filtered_df = [])
  /\ (non_discounted_rows filtered_df = [] ->
      comparison filtered_df = ([InfoBox cannot_compare], Done tt))
  /\ (non_discounted_rows filtered_df <> [] ->
      comparison filtered_df
      = ([SuccessBox sales_boost_text
            (mul (div (sub (mean_of "quantity" (discounted_rows filtered_df))
                           (mean_of "quantity"
                              (non_discounted_rows filtered_df)))
                      (mean_of "quantity" (non_discounted_rows filtered_df)))
                 hundred);
          WarningBox profit_diff_text
            (mul (sub (mean_of "profit_margin" (discounted_rows filtered_df))
                      (mean_of "profit_margin"
                         (non_discounted_rows filtered_df)))
                 hundred)],
         Done tt)).
Proof.
  apply (comparison_spec (prepared_of two_records)).
  exact two_records_prepared.
Defined.

(** ** The empty Filtered View *)




Lemma apply_filters_prepared (df : frame) (st : filter_state)
    (filtered_df : frame) :
  prepared df -> apply_filters df st = ret filtered_df ->
  prepared filtered_df.
Proof.
  intros Hdf Hret.
  destruct (apply_filters_rows df st Hdf) as (v & Hv & -> & _).
  rewrite Hv in Hret. inversion Hret; subst. now apply prepared_loc.
Qed.




(** ** The margin and the discount *)

Lemma div_eucl_div_mod (a b : Z) : Z.div_eucl a b = ((a / b)%Z, (a mod b)%Z).
Proof. unfold Z.div, Z.modulo. now destruct (Z.div_eucl a b). Qed.

(** A finite number divided by itself is 1, exactly. *)
Lemma div_self (s : bool) (m : positive) (e : Z) :
  div (S754_finite s m e) (S754_finite s m e) = one.
Proof.
  unfold div, SFdiv, SFdiv_core_binary.
  replace (Zdigits2 (Zpos m) + e - (Zdigits2 (Zpos m) + e))%Z with 0%Z by lia.
  replace (e - e)%Z with 0%Z by lia.
  change (Z.min (fexp prec emax 0) 0) with (-53)%Z.
  change (0 - -53)%Z with 53%Z. cbv iota beta.
  rewrite Z.shiftl_mul_pow2 by lia.
  rewrite div_eucl_div_mod.
  rewrite (Z.mul_comm (Zpos m)), Z.div_mul, Z.mod_mul by discriminate.
  assert (Hloc : new_location (Zpos m) 0 = loc_Exact).
  { unfold new_location. destruct (Z.even (Zpos m)); reflexivity. }
  rewrite Hloc, xorb_nilpotent. reflexivity.
Qed.

Lemma margin_without_discount (price quantity discount : float64) :
  is_finite (revenue_of price quantity) = true ->
  eqb (revenue_of price quantity) zero = false ->
  eqb discount zero = true ->
  profit_margin_of price quantity discount = sub one discount.
Proof.
  unfold profit_margin_of, profit_of, discount_value_of.
  generalize (revenue_of price quantity). intros r Hfin Hnz Hd.
  destruct discount as [s' | s' | | s' m' e']; try discriminate;
    try (destruct s'; discriminate).
  destruct r as [s | s | | s m e]; try discriminate.
  change (sub one (S754_zero s')) with one.
  change (times (S754_finite s m e) (S754_zero s'))
    with (S754_zero (xorb s s')).
  change (minus (S754_finite s m e) (S754_zero (xorb s s')))
    with (S754_finite s m e).
  apply div_self.
Qed.

Lemma exact_margin (price quantity discount : Q) :
  ~ revenue_of price quantity == 0 ->
  profit_margin_of price quantity discount == 1 - discount.
Proof.
  unfold profit_margin_of, profit_of, discount_value_of, revenue_of; simpl.
  intros Hrev. field. split; intros Hz; apply Hrev; rewrite Hz; ring.
Qed.

(** C9, as the code has it. For a row whose revenue is finite and not zero:
    when the discount is zero the margin is 1 - discount, exactly; and the
    four formulas evaluated in exact arithmetic give 1 - discount for every
    discount, so that in binary64 the margin is 1 - discount up to the
    rounding of the three operations only. *)
Theorem margin_is_one_minus_discount :
  (forall price quantity discount : float64,
      is_finite (revenue_of price quantity) = true ->
      eqb (revenue_of price quantity) zero = false ->
      eqb discount zero = true ->
      profit_margin_of price quantity discount = sub one discount)
  /\ (forall price quantity discount : Q,
        ~ revenue_of price quantity == 0 ->
        profit_margin_of price quantity discount == 1 - discount).
Proof. split; [exact margin_without_discount | exact exact_margin]. Qed.

Lemma margin_is_one_minus_discount_witness :
  profit_margin_of (of_Z 100) (of_Z 2) zero = sub one zero
  /\ profit_margin_of (7 # 1) (1 # 1) (1 # 5) == 1 - (1 # 5).
Proof.
  split.
  - apply (proj1 margin_is_one_minus_discount); reflexivity.
  - apply (proj2 margin_is_one_minus_discount). discriminate.
Defined.

(** C9, as the specification has it, fails in binary64: at price 7,
    quantity 1 and discount 0.2 the revenue is 7 and the margin is not
    1 - 0.2, and it is not the margin of the row that differs in the price
    only. *)
Lemma margin_depends_on_price :
  let rs := rows (prepared_of same_discount) in
  let r := nth 0 rs (O, []) in
  let r' := nth 1 rs (O, []) in
  prepare no_unicode no_date same_discount = ret (prepared_of same_discount)
  /\ is_finite (num "revenue" r) = true
  /\ eqb (num "revenue" r) zero = false
  /\ num "discount" r = num "discount" r'
  /\ eqb (num "profit_margin" r) (sub one (num "discount" r)) = false
  /\ eqb (num "profit_margin" r) (num "profit_margin" r') = false.
Proof. vm_compute. repeat split. Qed.

(** ** The date column *)

Lemma to_datetime_cell (parse_datetime : scalar -> option Z) (s : string) :
  to_datetime parse_datetime [SStr s] <> [SStr s].
Proof. simpl. destruct (parse_datetime (SStr s)); discriminate. Qed.

(** A column is parsed as dates only if its header is [order_date] as
    written in the file. *)
Lemma unparsed_unless_exact (unicode_strip_lower : string -> string)
    (parse_datetime : scalar -> option Z)
    (raw : frame) :
  existsb (String.eqb "order_date") (names raw) = false ->
  clean unicode_strip_lower parse_datetime raw
  = ret (standardize_columns unicode_strip_lower raw).
Proof. intros Hex. unfold clean, parse_order_date. now rewrite Hex. Qed.

(** C5 on the code. The headers are normalized on line 46, after the date
    column has been looked up on line 42 under the header as written: a
    column headed [Order_Date] is renamed to [order_date] and keeps its text,
    where the same column headed [order_date] is parsed. *)
Theorem date_column_checked_before_normalization
    (unicode_strip_lower : string -> string)
    (parse_datetime : scalar -> option Z) (value : string) :
  clean unicode_strip_lower parse_datetime (one_column "Order_Date" value)
  = ret (one_column "order_date" value)
  /\ clean unicode_strip_lower parse_datetime (one_column "order_date" value)
     = ret {| index := [0]%nat;
              columns :=
                [("order_date", to_datetime parse_datetime [SStr value])] |}
  /\ to_datetime parse_datetime [SStr value] <> [SStr value].
Proof.
  split; [reflexivity | ]. split; [reflexivity | ]. apply to_datetime_cell.
Qed.

(** ** The grouped bar chart *)

Lemma eqb_sym (x y : float64) : eqb x y = eqb y x.
Proof.
  unfold eqb, SFeqb. rewrite (compare_antisym y x).
  now destruct (SFcompare y x) as [[ | | ] | ].
Qed.

Lemma same_sym (a b : scalar) : same a b = same b a.
Proof.
  destruct a, b; simpl; try reflexivity.
  - now rewrite eqb_sym, (andb_comm (is_nan x)).
  - apply String.eqb_sym.
  - apply Z.eqb_sym.
Qed.

Lemma same_key_refl (k : key) : same_key k k = true.
Proof. unfold same_key. now rewrite same_refl, eqb_reflx. Qed.

Lemma same_key_sym (k k' : key) : same_key k k' = same_key k' k.
Proof.
  unfold same_key. rewrite same_sym. f_equal.
  now destruct (snd k), (snd k').
Qed.

Lemma In_insert_key (x k : key) (l : list key) :
  In x (insert_key k l) <-> x = k \/ In x l.
Proof.
  induction l as [ | k' l IH]; simpl.
  - intuition.
  - destruct (key_ltb k k'); simpl; rewrite ?IH; intuition.
Qed.

Lemma In_sort_keys (x : key) (l : list key) :
  In x (sort_keys l) <-> In x l.
Proof.
  unfold sort_keys. induction l as [ | k l IH]; simpl; [reflexivity | ].
  rewrite In_insert_key, IH. intuition.
Qed.

Lemma distinct_from_In {A : Type} (eq : A -> A -> bool) (l : list A) :
  forall seen x, In x (distinct_from eq seen l) -> In x l.
Proof.
  induction l as [ | y l IH]; intros seen x; simpl; [easy | ].
  destruct (existsb (eq y) seen).
  - intros Hin. right. now apply IH with seen.
  - intros [-> | Hin]; [now left | ]. right. now apply IH with (y :: seen).
Qed.

Lemma combine_map {A B C : Type} (f : A -> B) (g : A -> C) (l : list A) :
  combine (map f l) (map g l) = map (fun x => (f x, g x)) l.
Proof. induction l as [ | x l IH]; simpl; [reflexivity | now rewrite IH]. Qed.

Lemma profit_by_category_ret (filtered_df : frame) :
  prepared filtered_df ->
  profit_cat filtered_df
  = ret (map (fun k =>
                bar_of (k, mean_of "profit"
                             (filter (in_group k) (rows filtered_df))))
             (group_keys (map group_of (rows filtered_df)))).
Proof.
  intros (Hal & (c & Hc) & _ & (d & xs & Hd & Hxs) & _ & _
          & (p & ps & Hp & Hps) & _).
  destruct (numbers_of_column _ _ _ _ Hal Hd Hxs) as [Exs _].
  destruct (numbers_of_column _ _ _ _ Hal Hp Hps) as [Eps _].
  pose proof (column_cells _ _ _ Hal Hc) as Ec.
  unfold profit_cat. unfold column in *.
  rewrite Hd, Hc, Hp, !bind_ret_l.
  rewrite (series_cmp_ret _ _ _ Hxs), !bind_ret_l, Hps, !bind_ret_l.
  assert (Hkeys : combine c (map (fun x => gtb x zero) xs)
                  = map group_of (rows filtered_df)).
  { rewrite <- Ec, Exs, map_map. apply combine_map. }
  unfold groupby_mean. rewrite Hkeys, map_map. f_equal.
  apply map_ext. intros k. simpl. do 2 f_equal. unfold mean_of. f_equal.
  rewrite Eps, map_map, select_map. f_equal.
  apply (select_filter (in_group k)).
Qed.

Lemma surcharge_prepared : prepared (prepared_of surcharge).
Proof. prepared_here. Qed.

(** C6, as the code has it. The bars are the groups of the Filtered View by
    category and by the flag discount > 0: a row is "Discounted" when its
    discount is above zero and "Non-Discounted" when it is not (zero or
    below). Every bar stands for a group with at least one row, its height is
    the mean profit of the rows of the Filtered View in that group, its label
    follows its flag, and every row with a category is in the group of some
    bar. *)
Theorem bars_are_group_means (filtered_df : frame) :
  prepared filtered_df ->
  exists bars,
    profit_cat filtered_df = ret bars
    /\ (forall b, In b bars ->
          bar_profit b
          = mean_of "profit"
              (filter (in_group (bar_category b, bar_discount b))
                 (rows filtered_df))
          /\ bar_label b
             = (if bar_discount b then "Discounted" else "Non-Discounted")
          /\ exists r, In r (rows filtered_df)
                       /\ group_of r = (bar_category b, bar_discount b))
    /\ (forall r, In r (rows filtered_df) ->
          isna (cell "category" r) = false ->
          exists b, In b bars
                    /\ in_group (bar_category b, bar_discount b) r = true).
Proof.
  intros Hdf. eexists. split; [now apply profit_by_category_ret | ]. split.
  - intros b Hb. apply in_map_iff in Hb as (k & <- & Hk).
    destruct k as [c flag]; simpl. repeat split.
    unfold group_keys in Hk. apply (proj1 (In_sort_keys _ _)) in Hk.
    apply distinct_from_In, filter_In in Hk as [Hk _].
    apply in_map_iff in Hk as (r & Hr & Hin). now exists r.
  - intros r Hr Hcat.
    assert (Hin : In (group_of r)
                    (filter (fun k => negb (isna (fst k)))
                       (map group_of (rows filtered_df)))).
    { apply filter_In. split; [now apply in_map | ].
      simpl. now rewrite Hcat. }
    pose proof (distinct_from_covers same_key same_key_refl _ []
                  (group_of r) Hin) as Hcov.
    simpl in Hcov. apply existsb_exists in Hcov as (k & Hk & Hsame).
    exists (bar_of (k, mean_of "profit"
                         (filter (in_group k) (rows filtered_df)))).
    split.
    + apply in_map_iff. exists k. split; [reflexivity | ].
      unfold group_keys. now apply (proj2 (In_sort_keys _ _)).
    + destruct k as [c flag]; simpl. unfold in_group.
      now rewrite same_key_sym.
Qed.

Lemma bars_are_group_means_witness :
  let filtered_df := prepared_of two_records in
  exists bars,
    profit_cat filtered_df = ret bars
    /\ (forall b, In b bars ->
          bar_profit b
          = mean_of "profit"
              (filter (in_group (bar_category b, bar_discount b))
                 (rows filtered_df))
          /\ bar_label b
             = (if bar_discount b then "Discounted" else "Non-Discounted")
          /\ exists r, In r (rows filtered_df)
                       /\ group_of r = (bar_category b, bar_discount b))
    /\ (forall r, In r (rows filtered_df) ->
          isna (cell "category" r) = false ->
          exists b, In b bars
                    /\ in_group (bar_category b, bar_discount b) r = true).
Proof.
  apply (bars_are_group_means (prepared_of two_records)).
  exact two_records_prepared.
Defined.

(** C6, as the specification has it, fails: with a record of negative
    discount in the Filtered View of the default controls, the bar
    "Non-Discounted" of its category is the mean profit of that record and of
    the record without discount, 125, and not the mean profit, 100, of the
    rows with discount == 0. *)
Lemma non_discounted_bar_counts_negative_discounts :
  let filtered_df := prepared_of surcharge in
  let b := {| bar_category := SStr "A"; bar_discount := false;
              bar_profit := of_Z 125; bar_label := "Non-Discounted" |} in
  result (filtered_view (untouched (Some surcharge)) filtered_df)
  = Done filtered_df
  /\ profit_cat filtered_df = ret [b]
  /\ mean_of "profit"
       (filter (in_group_as_specified (bar_category b, bar_discount b))
          (rows filtered_df))
     = of_Z 100
  /\ bar_profit b
     <> mean_of "profit"
          (filter (in_group_as_specified (bar_category b, bar_discount b))
             (rows filtered_df)).
Proof. vm_compute. repeat split. discriminate. Qed.

(** ** A run on a well-formed dataset comes to its end *)

Lemma feature_engineering_prepared (df df' : frame) :
  priced df -> present df "category" -> present df "region" ->
  feature_engineering df = ret df' ->
  prepared df'.
Proof.
  intros (Hal & Hnd & (p & ps & Hp & Hps) & (q & qs & Hq & Hqs)
          & (d & ds & Hd & Hds)) (c & Hc) (g & Hg) Hret.
  rewrite (feature_engineering_ret _ _ _ _ _ _ _ Hnd Hp Hq Hd Hps Hqs Hds)
    in Hret.
  inversion Hret; subst df'.
  destruct (derive_columns _ _ _ _ _ _ _ Hal Hnd Hp Hq Hd Hps Hqs Hds)
    as (Hal' & (Hp' & Hq' & Hd') & Hr & Hv & Hpr & Hm).
  unfold prepared, present, numeric. split; [assumption | ].
  split; [exists c; unfold column, derive in *; now lookup | ].
  split; [exists g; unfold column, derive in *; now lookup | ].
  split; [now exists d, ds | ]. split; [now exists q, qs | ].
  split; [eexists; eexists; split; [exact Hr | apply floats_SNum] | ].
  split; eexists; eexists; (split; [eassumption | apply floats_SNum]).
Qed.

Lemma result_seq {A B : Type} (m : script A) (k : A -> script B) (a : A) :
  result m = Done a -> result (bind m k) = result (k a).
Proof.
  destruct m as [out o]. unfold result; simpl. intros ->.
  now destruct (k a).
Qed.

Lemma key_metrics_done (filtered_df : frame) :
  prepared filtered_df -> result (key_metrics filtered_df) = Done tt.
Proof.
  intros (_ & _ & _ & (d & ds & Hd & Hds) & _ & (r & rs & Hr & Hrs)
          & (p & ps & Hp & Hps) & (m & ms & Hm & Hms)).
  unfold column in *.
  unfold key_metrics, column_mean, column_sum.
  rewrite Hd, Hr, Hp, Hm. cbn [bind ret emit].
  rewrite Hds, Hrs, Hps, Hms. reflexivity.
Qed.

Lemma tabs_done (pearson : list float64 -> list float64 -> float64)
    (filtered_df : frame) :
  prepared filtered_df -> result (tabs pearson filtered_df) = Done tt.
Proof.
  intros Hdf. pose proof (profit_by_category_ret _ Hdf) as Hbars.
  destruct Hdf as (_ & (c & Hc) & (g & Hg) & (d & ds & Hd & Hds)
                   & (q & qs & Hq & Hqs) & (r & rs & Hr & Hrs)
                   & (p & ps & Hp & Hps) & _).
  unfold column in *.
  unfold tabs, plotly, corr, numeric_columns, corr_cols.
  rewrite Hbars, Hc, Hg, Hd, Hq, Hr, Hp. cbn [bind ret emit].
  rewrite Hds, Hqs, Hrs, Hps. reflexivity.
Qed.

Lemma insights_done (filtered_df : frame) :
  prepared filtered_df -> result (insights filtered_df) = Done tt.
Proof.
  intros Hdf. unfold insights. rewrite (comparison_cases _ Hdf).
  now destruct (negb _).
Qed.

Lemma render_done (pearson : list float64 -> list float64 -> float64)
    (filtered_df : frame) :
  prepared filtered_df -> result (render pearson filtered_df) = Done tt.
Proof.
  intros Hdf. unfold render.
  rewrite (result_seq _ _ tt (key_metrics_done _ Hdf)).
  rewrite (result_seq _ _ tt (tabs_done pearson _ Hdf)).
  now apply insights_done.
Qed.

Lemma column_unique (df : frame) (name : string) (v v' : list scalar) :
  column df name v -> column df name v' -> v = v'.
Proof. unfold column. intros ->. now intros [= ->]. Qed.

(** With the file in place, a table that lines 42-52 accept and in which two
    discounts differ, and a slider that answers, the run reaches the end of
    the script whatever the user selects: no step raises and nothing halts
    it. *)
Theorem run_completes (unicode_strip_lower : string -> string)
    (parse_datetime : scalar -> option Z)
    (pearson : list float64 -> list float64 -> float64)
    (w : env) (raw df : frame) :
  read_csv w file_path = Some raw ->
  prepare unicode_strip_lower parse_datetime raw = ret df ->
  prepared df ->
  spread df ->
  accepted w df ->
  result (dashboard unicode_strip_lower parse_datetime pearson w) = Done tt.
Proof.
  intros Hcsv Hprep Hdf Hsp (d & xs & range & Hd & Hxs & Hrange).
  unfold dashboard, load_data. rewrite Hcsv.
  pose proof Hdf as (Hal & (c & Hc) & (g & Hg) & _).
  pose proof (spread_bounds df d xs Hal Hd Hxs Hsp) as Hlt.
  destruct (apply_filters_rows df (chosen w c g range) Hdf)
    as (v & Hv & Ev & _).
  do 3 (rewrite (result_seq _ _ tt) by reflexivity).
  rewrite (result_seq _ _ raw) by reflexivity.
  rewrite (result_seq _ _ df) by now rewrite Hprep.
  rewrite (result_seq _ _ (chosen w c g range))
    by now rewrite (sidebar_ret w df c g d xs range Hc Hg Hd Hxs
                      (ltb_not_eqb _ _ Hlt) Hrange).
  rewrite (result_seq _ _ v) by now rewrite Hv.
  subst v. now apply render_done, prepared_loc.
Qed.

Lemma untouched_accepted (file : option frame) (df : frame) :
  prepared df -> accepted (untouched file) df.
Proof.
  intros (_ & _ & _ & (d & xs & Hd & Hxs) & _).
  now exists d, xs, (nanmin xs, nanmax xs).
Qed.

(** ** The example of the specification *)

(** Two records, (price 100, quantity 2, discount 0.1) and (price 50,
    quantity 1, discount 0): revenue 200 and 50, profit 180 and 50, margin
    0.9 and 1, mean discount 0.05; the run comes to its end. *)
Example two_records_run :
  let df := prepared_of two_records in
  prepare no_unicode no_date two_records = ret df
  /\ map (num "revenue") (rows df) = [of_Z 200; of_Z 50]
  /\ map (num "profit") (rows df) = [of_Z 180; of_Z 50]
  /\ map (num "profit_margin") (rows df) = [dec 9 1; one]
  /\ mean_of "discount" (rows df) = dec 5 2
  /\ result (dashboard no_unicode no_date no_correlation
               (untouched (Some two_records)))
     = Done tt.
Proof.
  cbv zeta. repeat (split; [reflexivity | ]).
  apply run_completes with two_records (prepared_of two_records);
    [ reflexivity | reflexivity | exact two_records_prepared
    | exact two_records_spread
    | apply untouched_accepted, two_records_prepared ].
Qed.

(** ** Headers as a spreadsheet writes them *)

Example normalize_name_examples (unicode_strip_lower : string -> string) :
  normalize_name unicode_strip_lower " Price" = "price"
  /\ normalize_name unicode_strip_lower "DISCOUNT " = "discount"
  /\ normalize_name unicode_strip_lower "Order_Date" = "order_date".
Proof. repeat split. Qed.

(** The columns the page computes with are found under any spelling of their
    headers; the dates are not: whatever the parser, the cells of the column
    headed [Order_Date] reach the page as the text of the file. *)
Example mixed_headers_run (unicode_strip_lower : string -> string)
    (parse_datetime : scalar -> option Z) :
  exists df,
    prepare unicode_strip_lower parse_datetime mixed_headers = ret df
    /\ map (num "revenue") (rows df) = [of_Z 200; of_Z 50]
    /\ map (cell "order_date") (rows df)
       = [SStr "2024-01-05"; SStr "2024-02-11"].
Proof. eexists. repeat split. Qed.

(** * Further properties of the script *)

(** ** Line 46: the headers in normal form *)

Lemma lower_ascii_idempotent (a : ascii) :
  lower_ascii (lower_ascii a) = lower_ascii a.
Proof. destruct a as [[] [] [] [] [] [] [] []]; reflexivity. Qed.

Lemma is_space_lower_ascii (a : ascii) :
  is_space (lower_ascii a) = is_space a.
Proof. destruct a as [[] [] [] [] [] [] [] []]; reflexivity. Qed.

Lemma lower_idempotent (s : string) : lower (lower s) = lower s.
Proof.
  induction s as [ | a s IH]; simpl; [reflexivity | ].
  now rewrite lower_ascii_idempotent, IH.
Qed.

Lemma lstrip_lower (s : string) : lstrip (lower s) = lower (lstrip s).
Proof.
  induction s as [ | a s IH]; simpl; [reflexivity | ].
  rewrite is_space_lower_ascii. now destruct (is_space a).
Qed.

Lemma rstrip_lower (s : string) : rstrip (lower s) = lower (rstrip s).
Proof.
  induction s as [ | a s IH]; simpl; [reflexivity | ].
  rewrite IH, is_space_lower_ascii.
  destruct (rstrip s); simpl; [now destruct (is_space a) | reflexivity].
Qed.

Lemma lstrip_idempotent (s : string) : lstrip (lstrip s) = lstrip s.
Proof.
  induction s as [ | a s IH]; simpl; [reflexivity | ].
  destruct (is_space a) eqn:Ha; [assumption | ]. simpl. now rewrite Ha.
Qed.

Lemma rstrip_idempotent (s : string) : rstrip (rstrip s) = rstrip s.
Proof.
  induction s as [ | a s IH]; simpl; [reflexivity | ].
  destruct (rstrip s) as [ | b r] eqn:Hr.
  - destruct (is_space a) eqn:Ha; simpl; [reflexivity | now rewrite Ha].
  - cbn [rstrip]. cbn [rstrip] in IH. now rewrite IH.
Qed.

Lemma lstrip_rstrip (s : string) : lstrip (rstrip s) = rstrip (lstrip s).
Proof.
  induction s as [ | a s IH]; simpl; [reflexivity | ].
  destruct (is_space a) eqn:Ha.
  - rewrite <- IH. destruct (rstrip s); simpl; [reflexivity | ].
    now rewrite Ha.
  - simpl. destruct (rstrip s); simpl; now rewrite Ha.
Qed.

Lemma strip_idempotent (s : string) : strip (strip s) = strip s.
Proof.
  unfold strip.
  now rewrite lstrip_rstrip, lstrip_idempotent, rstrip_idempotent.
Qed.

Lemma lower_ascii_is_ascii (a : ascii) :
  (nat_of_ascii (lower_ascii a) <? 128)%nat = (nat_of_ascii a <? 128)%nat.
Proof. destruct a as [[] [] [] [] [] [] [] []]; reflexivity. Qed.

Lemma is_ascii_lower (s : string) : is_ascii (lower s) = is_ascii s.
Proof.
  induction s as [ | a s IH]; cbn [lower is_ascii]; [reflexivity | ].
  now rewrite lower_ascii_is_ascii, IH.
Qed.

Lemma is_ascii_lstrip (s : string) :
  is_ascii s = true -> is_ascii (lstrip s) = true.
Proof.
  induction s as [ | a s IH]; cbn [lstrip is_ascii]; [easy | ].
  intros H. apply andb_true_iff in H as [Ha Hs].
  destruct (is_space a); [now apply IH | ].
  cbn [is_ascii]. now rewrite Ha, Hs.
Qed.

Lemma is_ascii_rstrip (s : string) :
  is_ascii s = true -> is_ascii (rstrip s) = true.
Proof.
  induction s as [ | a s IH]; cbn [rstrip is_ascii]; [easy | ].
  intros H. apply andb_true_iff in H as [Ha Hs]. specialize (IH Hs).
  destruct (rstrip s) as [ | b r].
  - destruct (is_space a); cbn [is_ascii]; [reflexivity | now rewrite Ha].
  - cbn [is_ascii] in IH |- *. now rewrite Ha, IH.
Qed.

(** The normal form of an ASCII header is ASCII. *)
Lemma is_ascii_normalize_name (unicode_strip_lower : string -> string)
    (col : string) :
  is_ascii col = true ->
  is_ascii (normalize_name unicode_strip_lower col) = true.
Proof.
  intros H. unfold normalize_name, strip. rewrite H, is_ascii_lower.
  now apply is_ascii_rstrip, is_ascii_lstrip.
Qed.

Lemma normalize_name_idempotent (unicode_strip_lower : string -> string)
    (col : string) :
  is_ascii col = true ->
  normalize_name unicode_strip_lower (normalize_name unicode_strip_lower col)
  = normalize_name unicode_strip_lower col.
Proof.
  intros H.
  pose proof (is_ascii_normalize_name unicode_strip_lower col H) as H'.
  unfold normalize_name at 1. rewrite H'.
  unfold normalize_name, strip. rewrite H.
  rewrite lstrip_lower, rstrip_lower, lower_idempotent.
  fold (strip (rstrip (lstrip col))). fold (strip col).
  now rewrite strip_idempotent.
Qed.

(** X1. On a table whose headers are ASCII, normalizing the headers a second
    time changes nothing: after line 46 every such header is in normal form,
    trimmed and in lower case. *)
Theorem standardize_columns_idempotent
    (unicode_strip_lower : string -> string) (df : frame) :
  Forall (fun name => is_ascii name = true) (names df) ->
  standardize_columns unicode_strip_lower
    (standardize_columns unicode_strip_lower df)
  = standardize_columns unicode_strip_lower df.
Proof.
  intros Hall. unfold standardize_columns; simpl. f_equal. rewrite map_map.
  apply map_ext_in. intros c Hc; simpl.
  rewrite normalize_name_idempotent; [reflexivity | ].
  rewrite Forall_forall in Hall. apply Hall. unfold names. now apply in_map.
Qed.

Lemma standardize_columns_idempotent_witness :
  standardize_columns no_unicode (standardize_columns no_unicode mixed_headers)
  = standardize_columns no_unicode mixed_headers.
Proof.
  apply (standardize_columns_idempotent no_unicode mixed_headers).
  repeat constructor.
Defined.

(** ** Lines 42-46: what cleaning returns *)

Lemma names_standardize (unicode_strip_lower : string -> string)
    (df : frame) :
  names (standardize_columns unicode_strip_lower df)
  = map (normalize_name unicode_strip_lower) (names df).
Proof. unfold names, standardize_columns; simpl. now rewrite !map_map. Qed.

Lemma aligned_standardize (unicode_strip_lower : string -> string)
    (df : frame) :
  aligned df -> aligned (standardize_columns unicode_strip_lower df).
Proof.
  unfold aligned, standardize_columns; simpl. intros Hal.
  rewrite Forall_forall in *. intros c Hc.
  apply in_map_iff in Hc as (c' & <- & Hc'). simpl. now apply Hal.
Qed.

Lemma find_present {A : Type} (name : string) (l : list (string * A)) :
  NoDup (map fst l) ->
  existsb (String.eqb name) (map fst l) = true ->
  exists a, find name l = One a.
Proof.
  intros Hnd Hex. destruct (filter_named_unique name l Hnd Hex) as [c Hc].
  exists (snd c). unfold find. now rewrite Hc.
Qed.

Lemma find_missing {A : Type} (name : string) (l : list (string * A)) :
  ~ In name (map fst l) -> find name l = Missing.
Proof.
  intros Hnotin. unfold find. rewrite filter_named_none; [reflexivity | ].
  destruct (existsb (String.eqb name) (map fst l)) eqn:Hex; [ | reflexivity].
  apply existsb_exists in Hex as (n & Hin & Hn).
  apply String.eqb_eq in Hn. now subst n.
Qed.

Lemma to_datetime_length (parse_datetime : scalar -> option Z)
    (v : list scalar) :
  List.length (to_datetime parse_datetime v) = List.length v.
Proof. unfold to_datetime. apply length_map. Qed.

(** What lines 42-46 return on a table with distinct headers: the table
    under normalized headers, the column headed [order_date] parsed if there
    is one. *)
Lemma clean_ret (unicode_strip_lower : string -> string)
    (parse_datetime : scalar -> option Z) (raw : frame) :
  NoDup (names raw) ->
  exists cleaned,
    clean unicode_strip_lower parse_datetime raw = ret cleaned
    /\ (cleaned = standardize_columns unicode_strip_lower raw
        \/ exists v, column raw "order_date" v
                     /\ cleaned
                        = standardize_columns unicode_strip_lower
                            (setitem raw "order_date"
                               (to_datetime parse_datetime v))).
Proof.
  intros Hnd. unfold clean, parse_order_date.
  destruct (existsb (String.eqb "order_date") (names raw)) eqn:Hex.
  - destruct (find_present "order_date" (columns raw) Hnd Hex) as [v Hv].
    apply column_intro in Hv. unfold column in Hv.
    rewrite Hv, !bind_ret_l. eexists. split; [reflexivity | ].
    right. now exists v.
  - rewrite bind_ret_l. eexists. split; [reflexivity | now left].
Qed.

Lemma names_setitem_present (df : frame) (name : string) (v : list scalar) :
  existsb (String.eqb name) (names df) = true ->
  names (setitem df name v) = names df.
Proof.
  intros Hex. unfold setitem, names at 1; simpl. rewrite Hex.
  apply names_replace.
Qed.

Lemma column_present_name (df : frame) (name : string) (v : list scalar) :
  column df name v -> existsb (String.eqb name) (names df) = true.
Proof.
  intros Hcol. apply column_inv, find_One_In in Hcol.
  apply existsb_exists. exists name. split; [ | apply String.eqb_refl].
  unfold names. apply in_map_iff. now exists (name, v).
Qed.

Lemma clean_names (unicode_strip_lower : string -> string)
    (parse_datetime : scalar -> option Z)
    (raw cleaned : frame) :
  NoDup (names raw) ->
  clean unicode_strip_lower parse_datetime raw = ret cleaned ->
  names cleaned = map (normalize_name unicode_strip_lower) (names raw)
  /\ index cleaned = index raw.
Proof.
  intros Hnd Hret.
  destruct (clean_ret unicode_strip_lower parse_datetime raw Hnd)
    as (c & Hc & [-> | (v & Hv & ->)]);
    rewrite Hc in Hret; inversion Hret; subst cleaned;
    rewrite names_standardize; [now split | ].
  rewrite names_setitem_present by now apply column_present_name with v.
  now split.
Qed.

Lemma getitem_clean_parsed (unicode_strip_lower : string -> string)
    (raw : frame) (v : list scalar) (name : string) :
  existsb (String.eqb "order_date") (names raw) = true ->
  name <> "order_date" ->
  getitem
    (standardize_columns unicode_strip_lower (setitem raw "order_date" v))
    name
  = getitem (standardize_columns unicode_strip_lower raw) name.
Proof.
  intros Hex Hne.
  unfold getitem, find, standardize_columns, setitem, names in *.
  cbn [columns]. rewrite Hex.
  assert (Heq : filter (named name)
                  (map (fun c =>
                          (normalize_name unicode_strip_lower (fst c), snd c))
                     (replace_column "order_date" v (columns raw)))
                = filter (named name)
                    (map (fun c =>
                            (normalize_name unicode_strip_lower (fst c),
                             snd c))
                       (columns raw))).
  { clear Hex. apply String.eqb_neq in Hne. rewrite String.eqb_sym in Hne.
    induction (columns raw) as [ | c cols IH]; cbn [replace_column map filter];
      [reflexivity | ].
    rewrite IH. destruct (String.eqb (fst c) "order_date") eqn:Hc;
      [ | reflexivity].
    apply String.eqb_eq in Hc. cbn [fst snd]. rewrite Hc.
    change (normalize_name unicode_strip_lower "order_date") with "order_date".
    change (named name ("order_date", v)) with (String.eqb "order_date" name).
    change (named name ("order_date", snd c))
      with (String.eqb "order_date" name).
    now rewrite Hne. }
  now rewrite Heq.
Qed.

Lemma well_formed_prepare (unicode_strip_lower : string -> string)
    (parse_datetime : scalar -> option Z)
    (raw : frame) :
  well_formed unicode_strip_lower raw ->
  exists df,
    prepare unicode_strip_lower parse_datetime raw = ret df
    /\ prepared df
    /\ forall d,
         column (standardize_columns unicode_strip_lower raw) "discount" d ->
         column df "discount" d.
Proof.
  intros (Hal & Hnd & Hp & Hq & Hd & Hc & Hg).
  assert (Hnd' : NoDup (names raw)) by now apply NoDup_map_inv in Hnd.
  assert (Hcleaned : exists cleaned,
             clean unicode_strip_lower parse_datetime raw = ret cleaned
             /\ priced cleaned
             /\ present cleaned "category" /\ present cleaned "region"
             /\ forall d,
                  column (standardize_columns unicode_strip_lower raw)
                    "discount" d ->
                  column cleaned "discount" d).
  { destruct (clean_ret unicode_strip_lower parse_datetime raw Hnd')
      as (cleaned & Hret & [-> | (v & Hv & ->)]).
    - eexists. split; [exact Hret | ]. repeat split; auto.
      + now apply aligned_standardize.
      + now rewrite names_standardize.
    - pose proof (column_present_name _ _ _ Hv) as Hex.
      eexists. split; [exact Hret | ].
      unfold priced, numeric, present, column in *.
      rewrite !getitem_clean_parsed by (assumption || discriminate).
      repeat split; auto.
      + apply aligned_standardize, aligned_setitem; [assumption | ].
        rewrite to_datetime_length. now apply column_length with "order_date".
      + rewrite names_standardize, names_setitem_present; assumption. }
  destruct Hcleaned as (cleaned & Hclean & Hpriced & Hcat & Hreg & Hsame).
  pose proof Hpriced as (Hal' & Hn & (p & ps & Hpc & Hps)
                         & (q & qs & Hqc & Hqs) & (d & ds & Hdc & Hds)).
  exists (derive ps qs ds cleaned).
  assert (Hfe : feature_engineering cleaned = ret (derive ps qs ds cleaned))
    by now apply feature_engineering_ret with (p := p) (q := q) (d := d).
  split; [ | split].
  - unfold prepare. now rewrite Hclean, bind_ret_l.
  - now apply feature_engineering_prepared with cleaned.
  - intros d' Hd'. apply Hsame in Hd'.
    rewrite (column_unique _ _ _ _ Hd' Hdc).
    now destruct (derive_columns _ _ _ _ _ _ _ Hal' Hn Hpc Hqc Hdc Hps Hqs Hds)
      as (_ & (_ & _ & Hdd) & _).
Qed.

(** Whether two discounts differ is read off the column of discounts. *)
Lemma spread_column (df : frame) (d : list scalar) (xs : list float64) :
  aligned df -> column df "discount" d -> floats d = ret xs ->
  spread df <-> exists x y, In x xs /\ In y xs /\ ltb x y = true.
Proof.
  intros Hal Hd Hxs.
  destruct (numbers_of_column _ _ _ _ Hal Hd Hxs) as [Exs _]. split.
  - intros (r & r' & Hr & Hr' & Hlt).
    exists (num "discount" r), (num "discount" r').
    rewrite Exs. repeat split; try assumption; now apply in_map.
  - intros (x & y & Hx & Hy & Hlt). rewrite Exs in Hx, Hy.
    apply in_map_iff in Hx as (r & <- & Hr).
    apply in_map_iff in Hy as (r' & <- & Hr').
    now exists r, r'.
Qed.

(** X2. A dataset with distinct normalized headers, numeric price, quantity
    and discount, two discounts that differ, and columns category and region
    never stops the page: with the file in place and a slider that answers,
    the run reaches the end of the script whatever the user selects in the
    sidebar. *)
Theorem well_formed_run (unicode_strip_lower : string -> string)
    (parse_datetime : scalar -> option Z)
    (pearson : list float64 -> list float64 -> float64)
    (w : env) (raw : frame) :
  read_csv w file_path = Some raw ->
  well_formed unicode_strip_lower raw ->
  spread (standardize_columns unicode_strip_lower raw) ->
  accepted w (standardize_columns unicode_strip_lower raw) ->
  result (dashboard unicode_strip_lower parse_datetime pearson w) = Done tt.
Proof.
  intros Hcsv Hraw Hsp (d & xs & range & Hd & Hxs & Hrange).
  destruct (well_formed_prepare unicode_strip_lower parse_datetime raw Hraw)
    as (df & Hprep & Hdf & Hsame).
  destruct Hraw as (Hal & _). pose proof Hdf as (Hal' & _).
  apply run_completes with raw df; try assumption.
  - apply (spread_column df d xs Hal' (Hsame d Hd) Hxs).
    now apply (spread_column _ d xs (aligned_standardize _ _ Hal) Hd Hxs).
  - exists d, xs, range. repeat split; [now apply Hsame | assumption ..].
Qed.

Ltac well_formed_here :=
  unfold well_formed, aligned, numeric, present, column;
  repeat split;
  first [ eexists; eexists; split; reflexivity
        | eexists; reflexivity
        | nodup_here
        | repeat constructor ].

Lemma mixed_headers_well_formed : well_formed no_unicode mixed_headers.
Proof. well_formed_here. Qed.

Lemma mixed_headers_spread :
  spread (standardize_columns no_unicode mixed_headers).
Proof.
  exists (nth 1 (rows (standardize_columns no_unicode mixed_headers)) (O, [])),
         (nth 0 (rows (standardize_columns no_unicode mixed_headers)) (O, [])).
  split; [right; left; reflexivity | ].
  split; [left; reflexivity | reflexivity].
Qed.

Lemma well_formed_run_witness :
  result (dashboard no_unicode no_date no_correlation
            (untouched (Some mixed_headers)))
  = Done tt.
Proof.
  apply (well_formed_run no_unicode no_date no_correlation
           (untouched (Some mixed_headers)) mixed_headers).
  - reflexivity.
  - exact mixed_headers_well_formed.
  - exact mixed_headers_spread.
  - now exists [SNum (dec 1 1); SNum zero], [dec 1 1; zero], (zero, dec 1 1).
Defined.

(** X3. When no header of the file normalizes to [price], the run raises
    [KeyError] for that name on line 49, after the page header and before
    the sidebar, the metrics and the charts. *)
Theorem missing_price_raises (unicode_strip_lower : string -> string)
    (parse_datetime : scalar -> option Z)
    (pearson : list float64 -> list float64 -> float64)
    (w : env) (raw : frame) :
  read_csv w file_path = Some raw ->
  NoDup (names raw) ->
  ~ In "price" (map (normalize_name unicode_strip_lower) (names raw)) ->
  dashboard unicode_strip_lower parse_datetime pearson w
  = ([PageConfig "E-Commerce Discount Analysis" "wide";
      Title "E-Commerce Discount Analysis Dashboard";
      Markdown
        "Analyze how discounts affect **sales, profit, and customer behavior** across categories and regions."],
     Raised (KeyError "price")).
Proof.
  intros Hcsv Hnd Hprice.
  destruct (clean_ret unicode_strip_lower parse_datetime raw Hnd)
    as (cleaned & Hclean & _).
  destruct (clean_names unicode_strip_lower parse_datetime raw cleaned Hnd
              Hclean) as [Hnames _].
  assert (Hprep : prepare unicode_strip_lower parse_datetime raw
                  = raise (KeyError "price")).
  { unfold prepare. rewrite Hclean, bind_ret_l.
    unfold feature_engineering, getitem.
    rewrite find_missing; [reflexivity | ].
    fold (names cleaned). now rewrite Hnames. }
  unfold dashboard, load_data. rewrite Hcsv. cbn [bind ret emit].
  now rewrite Hprep.
Qed.

Lemma missing_price_raises_witness :
  dashboard no_unicode no_date no_correlation
    (untouched (Some (one_column "Order_Date" "2024-01-05")))
  = ([PageConfig "E-Commerce Discount Analysis" "wide";
      Title "E-Commerce Discount Analysis Dashboard";
      Markdown
        "Analyze how discounts affect **sales, profit, and customer behavior** across categories and regions."],
     Raised (KeyError "price")).
Proof.
  apply (missing_price_raises no_unicode no_date no_correlation
           (untouched (Some (one_column "Order_Date" "2024-01-05")))
           (one_column "Order_Date" "2024-01-05")).
  - reflexivity.
  - nodup_here.
  - simpl. intuition discriminate.
Defined.

Lemma pairs_eq {A B : Type} (l l' : list (A * B)) :
  map fst l = map fst l' -> map snd l = map snd l' -> l = l'.
Proof.
  revert l'. induction l as [ | [a b] l IH]; intros [ | [a' b'] l'];
    simpl; intros Hfst Hsnd; try discriminate; [reflexivity | ].
  inversion Hfst; inversion Hsnd; subst. f_equal. now apply IH.
Qed.

Lemma not_in_existsb (name : string) (l : list string) :
  ~ In name l -> existsb (String.eqb name) l = false.
Proof.
  intros Hnotin. destruct (existsb (String.eqb name) l) eqn:Hex;
    [ | reflexivity].
  apply existsb_exists in Hex as (n & Hin & Hn).
  apply String.eqb_eq in Hn. now subst n.
Qed.

(** X4. How the headers are spelled does not matter to lines 42-52, the
    header [order_date] apart: two tables with the same labels and cells
    whose headers have the same normal forms, none of them being
    [order_date] as written, are prepared to the same table, or fail alike. *)
Theorem headers_spelling_irrelevant (unicode_strip_lower : string -> string)
    (parse_datetime : scalar -> option Z)
    (raw raw' : frame) :
  index raw = index raw' ->
  map snd (columns raw) = map snd (columns raw') ->
  map (normalize_name unicode_strip_lower) (names raw)
  = map (normalize_name unicode_strip_lower) (names raw') ->
  ~ In "order_date" (names raw) ->
  ~ In "order_date" (names raw') ->
  prepare unicode_strip_lower parse_datetime raw
  = prepare unicode_strip_lower parse_datetime raw'.
Proof.
  intros Hidx Hcells Hnames Hod Hod'. unfold prepare.
  rewrite !unparsed_unless_exact by now apply not_in_existsb.
  assert (Heq : standardize_columns unicode_strip_lower raw
                = standardize_columns unicode_strip_lower raw').
  { unfold standardize_columns. rewrite Hidx. f_equal.
    apply pairs_eq; rewrite !map_map; simpl.
    - unfold names in Hnames. now rewrite !map_map in Hnames.
    - exact Hcells. }
  now rewrite Heq.
Qed.

Lemma headers_spelling_irrelevant_witness :
  prepare no_unicode no_date mixed_headers
  = prepare no_unicode no_date upper_headers.
Proof.
  apply (headers_spelling_irrelevant no_unicode no_date mixed_headers
           upper_headers);
    try reflexivity; simpl; intuition discriminate.
Defined.

(** ** Lines 49-52 run again *)

Lemma replace_column_same (name : string) (v : list scalar)
    (cols : list (string * list scalar)) :
  find name cols = One v -> replace_column name v cols = cols.
Proof.
  unfold find. destruct (filter (named name) cols) as [ | c0 [ | ? ?]] eqn:Hf;
    try discriminate.
  intros Hone. inversion Hone; subst v.
  assert (Hall : forall c, In c cols -> named name c = true -> c = c0).
  { intros c Hin Hc.
    assert (Hc' : In c (filter (named name) cols)) by now apply filter_In.
    rewrite Hf in Hc'. now destruct Hc' as [-> | []]. }
  assert (Hc0 : fst c0 = name).
  { assert (Hin : In c0 (filter (named name) cols)) by (rewrite Hf; now left).
    apply filter_In in Hin as [_ Hn]. now apply String.eqb_eq in Hn. }
  clear Hf. induction cols as [ | c cols IH]; simpl; [reflexivity | ].
  rewrite IH by (intros c' Hin; apply Hall; now right). f_equal.
  destruct (String.eqb (fst c) name) eqn:Hc; [ | reflexivity].
  rewrite (Hall c (or_introl eq_refl) Hc).
  destruct c0 as [n v0]; simpl in *. now subst n.
Qed.

Lemma setitem_same (df : frame) (name : string) (v : list scalar) :
  column df name v -> setitem df name v = df.
Proof.
  intros Hcol. pose proof (column_present_name _ _ _ Hcol) as Hex.
  apply column_inv in Hcol. destruct df as [idx cols].
  unfold setitem, names in *; simpl in *. rewrite Hex. f_equal.
  now apply replace_column_same.
Qed.

Lemma NoDup_derive (ps qs ds : list float64) (df : frame) :
  NoDup (names df) -> NoDup (names (derive ps qs ds df)).
Proof. intros Hnd. unfold derive. now repeat apply NoDup_setitem. Qed.

(** X5. Lines 49-52 recompute the derived columns identically: run again on
    the table they returned, they return that table unchanged. *)
Theorem feature_engineering_idempotent (df df' : frame) :
  priced df ->
  feature_engineering df = ret df' ->
  feature_engineering df' = ret df'.
Proof.
  intros (Hal & Hnd & (p & ps & Hp & Hps) & (q & qs & Hq & Hqs)
          & (d & ds & Hd & Hds)) Hret.
  rewrite (feature_engineering_ret _ _ _ _ _ _ _ Hnd Hp Hq Hd Hps Hqs Hds)
    in Hret.
  inversion Hret; subst df'.
  destruct (derive_columns _ _ _ _ _ _ _ Hal Hnd Hp Hq Hd Hps Hqs Hds)
    as (Hal' & (Hp' & Hq' & Hd') & Hr & Hv & Hpr & Hm).
  rewrite (feature_engineering_ret _ _ _ _ _ _ _
             (NoDup_derive ps qs ds df Hnd) Hp' Hq' Hd' Hps Hqs Hds).
  f_equal. cbv zeta in Hr, Hv, Hpr, Hm.
  set (df' := derive ps qs ds df) in *. unfold derive at 1.
  rewrite (setitem_same df' "revenue" _ Hr).
  rewrite (setitem_same df' "discount_value" _ Hv).
  rewrite (setitem_same df' "profit" _ Hpr).
  now rewrite (setitem_same df' "profit_margin" _ Hm).
Qed.

Lemma feature_engineering_idempotent_witness :
  feature_engineering (prepared_of two_records)
  = ret (prepared_of two_records).
Proof.
  apply (feature_engineering_idempotent two_records (prepared_of two_records)).
  - exact two_records_priced.
  - reflexivity.
Defined.

Lemma names_setitem_fresh (df : frame) (name : string) (v : list scalar) :
  ~ In name (names df) -> names (setitem df name v) = names df ++ [name].
Proof.
  intros Hfresh. unfold setitem, names at 1; simpl.
  rewrite (not_in_existsb _ _ Hfresh). unfold names. now rewrite map_app.
Qed.

Lemma names_setitem_app (df : frame) (name : string) (v : list scalar)
    (l : list string) :
  names df = l -> ~ In name l -> names (setitem df name v) = l ++ [name].
Proof. intros <- Hfresh. now apply names_setitem_fresh. Qed.

Ltac not_among :=
  let Hin := fresh "Hin" in
  intros Hin;
  repeat (apply in_app_or in Hin as [Hin | [Hin | []]]; [ | discriminate]);
  contradiction.

(** X6. Lines 49-52 touch nothing but the four derived columns: every column
    under another name is read as before, and when none of the four names is
    a header yet the four columns are appended, in the order revenue,
    discount_value, profit, profit_margin. *)
Theorem feature_engineering_layout (df df' : frame) :
  priced df ->
  feature_engineering df = ret df' ->
  (forall name,
      ~ In name ["revenue"; "discount_value"; "profit"; "profit_margin"] ->
      getitem df' name = getitem df name)
  /\ (Forall (fun name => ~ In name (names df))
        ["revenue"; "discount_value"; "profit"; "profit_margin"] ->
      names df'
      = names df ++ ["revenue"; "discount_value"; "profit"; "profit_margin"]).
Proof.
  intros (Hal & Hnd & (p & ps & Hp & Hps) & (q & qs & Hq & Hqs)
          & (d & ds & Hd & Hds)) Hret.
  rewrite (feature_engineering_ret _ _ _ _ _ _ _ Hnd Hp Hq Hd Hps Hqs Hds)
    in Hret.
  inversion Hret; subst df'. unfold derive. split.
  - intros name Hname. simpl in Hname.
    rewrite !getitem_setitem_other; [reflexivity | | | | ];
      intros <-; intuition.
  - intros Hfresh.
    inversion Hfresh as [ | ? ? H1 Hf1]; subst.
    inversion Hf1 as [ | ? ? H2 Hf2]; subst.
    inversion Hf2 as [ | ? ? H3 Hf3]; subst.
    inversion Hf3 as [ | ? ? H4 _]; subst.
    replace (names df
             ++ ["revenue"; "discount_value"; "profit"; "profit_margin"])
      with ((((names df ++ ["revenue"]) ++ ["discount_value"])
             ++ ["profit"]) ++ ["profit_margin"])
      by now rewrite <- !app_assoc.
    repeat (apply names_setitem_app; [ | not_among]).
    reflexivity.
Qed.

Lemma feature_engineering_layout_witness :
  (forall name,
      ~ In name ["revenue"; "discount_value"; "profit"; "profit_margin"] ->
      getitem (prepared_of two_records) name = getitem two_records name)
  /\ (Forall (fun name => ~ In name (names two_records))
        ["revenue"; "discount_value"; "profit"; "profit_margin"] ->
      names (prepared_of two_records)
      = names two_records
        ++ ["revenue"; "discount_value"; "profit"; "profit_margin"]).
Proof.
  apply (feature_engineering_layout two_records (prepared_of two_records)).
  - exact two_records_priced.
  - reflexivity.
Defined.

(** ** Lines 78-83: filtering again, wider and contradictory filters *)

(** X7. Filtering the Filtered View by the state that produced it returns
    it unchanged. *)
Theorem apply_filters_idempotent (df : frame) (st : filter_state)
    (filtered_df : frame) :
  prepared df ->
  apply_filters df st = ret filtered_df ->
  apply_filters filtered_df st = ret filtered_df.
Proof.
  intros Hdf Hret.
  pose proof (apply_filters_prepared _ _ _ Hdf Hret) as Hv.
  destruct (apply_filters_rows df st Hdf) as (v & Hv1 & _ & Hrows).
  rewrite Hv1 in Hret. inversion Hret; subst v. clear Hret.
  destruct (apply_filters_rows filtered_df st Hv) as (v' & -> & -> & _).
  f_equal. destruct Hv as (Hal & _). apply loc_all; [assumption | | ].
  - rewrite length_map. apply rows_length.
  - rewrite Forall_forall. intros b Hb.
    apply in_map_iff in Hb as (r & <- & Hr). rewrite Hrows in Hr.
    now apply filter_In in Hr.
Qed.

Lemma apply_filters_idempotent_witness :
  apply_filters (loc [true; false] (prepared_of two_records)) category_A
  = ret (loc [true; false] (prepared_of two_records)).
Proof.
  apply (apply_filters_idempotent (prepared_of two_records) category_A).
  - exact two_records_prepared.
  - reflexivity.
Defined.

Lemma existsb_incl {A : Type} (p : A -> bool) (l l' : list A) :
  incl l l' -> existsb p l = true -> existsb p l' = true.
Proof.
  intros Hincl Hex. apply existsb_exists in Hex as (x & Hin & Hp).
  apply existsb_exists. exists x. split; [now apply Hincl | assumption].
Qed.

Lemma admits_narrower (st st' : filter_state) (r : row) :
  narrower st st' -> admits st r = true -> admits st' r = true.
Proof.
  intros (Hc & Hg & Hlo & Hhi). unfold admits.
  rewrite !andb_true_iff. intros [[[Hcat Hreg] Hge] Hle]. repeat split.
  - now apply existsb_incl with (categories st).
  - now apply existsb_incl with (regions st).
  - now apply leb_trans with (fst (discount_range st)).
  - now apply leb_trans with (snd (discount_range st)).
Qed.

(** X8. Selecting more never loses a row: when a state of the filters
    selects at most the categories and regions of another and its range lies
    within the other's, every row of its Filtered View is a row of the
    other's Filtered View. *)
Theorem apply_filters_monotone (df : frame) (st st' : filter_state) :
  prepared df ->
  narrower st st' ->
  exists filtered_df filtered_df',
    apply_filters df st = ret filtered_df
    /\ apply_filters df st' = ret filtered_df'
    /\ incl (rows filtered_df) (rows filtered_df').
Proof.
  intros Hdf Hst.
  destruct (apply_filters_rows df st Hdf) as (v & Hv & _ & Hrows).
  destruct (apply_filters_rows df st' Hdf) as (v' & Hv' & _ & Hrows').
  exists v, v'. repeat split; try assumption.
  rewrite Hrows, Hrows'. intros r Hr. apply filter_In in Hr as [Hin Hadm].
  apply filter_In. split; [assumption | ].
  now apply admits_narrower with st.
Qed.

Lemma apply_filters_monotone_witness :
  exists filtered_df filtered_df',
    apply_filters (prepared_of two_records) category_A = ret filtered_df
    /\ apply_filters (prepared_of two_records) both_categories
       = ret filtered_df'
    /\ incl (rows filtered_df) (rows filtered_df').
Proof.
  apply (apply_filters_monotone (prepared_of two_records) category_A
           both_categories).
  - exact two_records_prepared.
  - repeat split; simpl; try reflexivity; intros c Hc; simpl in *; tauto.
Defined.

(** X9. A contradictory state of the filters gives a Filtered View without
    rows: no category selected, no region selected, or a range whose upper
    end is below its lower end. *)
Theorem contradictory_filters_select_nothing (df : frame)
    (st : filter_state) :
  prepared df ->
  categories st = [] \/ regions st = []
  \/ ltb (snd (discount_range st)) (fst (discount_range st)) = true ->
  exists filtered_df,
    apply_filters df st = ret filtered_df /\ rows filtered_df = [].
Proof.
  intros Hdf Hst.
  destruct (apply_filters_rows df st Hdf) as (v & Hv & _ & Hrows).
  exists v. split; [assumption | ]. rewrite Hrows.
  assert (Hnone : forall r, admits st r = false).
  { intros r. unfold admits. destruct Hst as [-> | [-> | Hlt]].
    - reflexivity.
    - simpl. now rewrite andb_false_r.
    - destruct (leb (fst (discount_range st)) (num "discount" r)) eqn:Hlo;
        [ | now rewrite andb_false_r].
      destruct (leb (num "discount" r) (snd (discount_range st))) eqn:Hhi;
        [ | now rewrite andb_false_r].
      pose proof (leb_trans _ _ _ Hlo Hhi) as Hle.
      rewrite (ltb_not_leb _ _ Hlt) in Hle. discriminate. }
  clear Hrows. induction (rows df) as [ | r rs IH]; cbn [filter];
    [reflexivity | ].
  now rewrite Hnone.
Qed.

Lemma contradictory_filters_select_nothing_witness :
  exists filtered_df,
    apply_filters (prepared_of two_records) inverted_range = ret filtered_df
    /\ rows filtered_df = [].
Proof.
  apply (contradictory_filters_select_nothing (prepared_of two_records)
           inverted_range).
  - exact two_records_prepared.
  - right. right. reflexivity.
Defined.

(** ** Line 104: the preview *)





(** ** Lines 127-161 when no discount is negative *)

Lemma nonnegative_flag (d : float64) :
  leb zero d = true -> negb (gtb d zero) = eqb d zero.
Proof.
  unfold leb, gtb, ltb, eqb, SFleb, SFltb, SFeqb.
  rewrite (compare_antisym zero d).
  now destruct (SFcompare zero d) as [[ | | ] | ].
Qed.

Lemma view_discounts_nonnegative (df : frame) (st : filter_state)
    (filtered_df : frame) (r : row) :
  prepared df ->
  apply_filters df st = ret filtered_df ->
  leb zero (fst (discount_range st)) = true ->
  In r (rows filtered_df) ->
  leb zero (num "discount" r) = true.
Proof.
  intros Hdf Hret Hlo Hr.
  destruct (apply_filters_rows df st Hdf) as (v & Hv & _ & Hrows).
  rewrite Hv in Hret. inversion Hret; subst v.
  rewrite Hrows in Hr. apply filter_In in Hr as [_ Hadm].
  unfold admits in Hadm. rewrite !andb_true_iff in Hadm.
  destruct Hadm as [[_ Hge] _].
  now apply leb_trans with (fst (discount_range st)).
Qed.

Lemma groups_agree (k : key) (r : row) :
  leb zero (num "discount" r) = true ->
  in_group k r = in_group_as_specified k r.
Proof.
  intros Hd. unfold in_group, in_group_as_specified, same_key, group_of.
  simpl. f_equal. rewrite <- (nonnegative_flag _ Hd).
  now destruct (snd k), (gtb (num "discount" r) zero).
Qed.

(** X11. When the lower end of the selected range is zero or above, the
    grouped bar chart is the one the specification words: every bar
    "Non-Discounted" is the mean profit of the rows of its category with
    discount == 0, every bar "Discounted" the mean profit of the rows of its
    category with discount > 0. *)
Theorem bars_as_specified (df : frame) (st : filter_state)
    (filtered_df : frame) :
  prepared df ->
  apply_filters df st = ret filtered_df ->
  leb zero (fst (discount_range st)) = true ->
  exists bars,
    profit_cat filtered_df = ret bars
    /\ forall b, In b bars ->
         bar_profit b
         = mean_of "profit"
             (filter (in_group_as_specified (bar_category b, bar_discount b))
                (rows filtered_df)).
Proof.
  intros Hdf Hret Hlo.
  pose proof (apply_filters_prepared _ _ _ Hdf Hret) as Hv.
  eexists. split; [now apply profit_by_category_ret | ].
  intros b Hb. apply in_map_iff in Hb as (k & <- & _).
  destruct k as [c flag]; simpl. f_equal. apply filter_ext_in.
  intros r Hr. apply groups_agree.
  now apply view_discounts_nonnegative with df st filtered_df.
Qed.

Lemma bars_as_specified_witness :
  exists bars,
    profit_cat (prepared_of two_records) = ret bars
    /\ forall b, In b bars ->
         bar_profit b
         = mean_of "profit"
             (filter (in_group_as_specified (bar_category b, bar_discount b))
                (rows (prepared_of two_records))).
Proof.
  apply (bars_as_specified (prepared_of two_records) both_categories).
  - exact two_records_prepared.
  - reflexivity.
  - reflexivity.
Defined.

Lemma filter_split_length {A : Type} (p q : A -> bool) (l : list A) :
  (forall x, In x l -> q x = negb (p x)) ->
  (List.length (filter p l) + List.length (filter q l))%nat = List.length l.
Proof.
  induction l as [ | x l IH]; intros Hpq; [reflexivity | ].
  cbn [filter]. rewrite (Hpq x (or_introl eq_refl)).
  specialize (IH (fun y Hy => Hpq y (or_intror Hy))).
  destruct (p x); simpl; lia.
Qed.

(** X12. When the lower end of the selected range is zero or above, the
    closing comparison leaves no row out and counts none twice: every row of
    the Filtered View is either a discounted row or a non-discounted row. *)
Theorem comparison_covers_view (df : frame) (st : filter_state)
    (filtered_df : frame) :
  prepared df ->
  apply_filters df st = ret filtered_df ->
  leb zero (fst (discount_range st)) = true ->
  (List.length (discounted_rows filtered_df)
   + List.length (non_discounted_rows filtered_df))%nat
  = List.length (rows filtered_df).
Proof.
  intros Hdf Hret Hlo. unfold discounted_rows, non_discounted_rows.
  apply filter_split_length. intros r Hr.
  symmetry. apply nonnegative_flag.
  now apply view_discounts_nonnegative with df st filtered_df.
Qed.

Lemma comparison_covers_view_witness :
  (List.length (discounted_rows (prepared_of two_records))
   + List.length (non_discounted_rows (prepared_of two_records)))%nat
  = List.length (rows (prepared_of two_records)).
Proof.
  apply (comparison_covers_view (prepared_of two_records) both_categories).
  - exact two_records_prepared.
  - reflexivity.
  - reflexivity.
Defined.

(** ** Lines 154-159 without discounted rows *)

Lemma no_discounts_prepared : prepared (prepared_of no_discounts).
Proof. prepared_here. Qed.

(** X13. The guard of the comparison looks at the non-discounted rows only:
    when the Filtered View has rows without discount and no discounted row,
    both sentences are shown all the same, and the two values in them are
    NaN. *)
Theorem comparison_without_discounted_rows (filtered_df : frame) :
  prepared filtered_df ->
  discounted_rows filtered_df = [] ->
  non_discounted_rows filtered_df <> [] ->
  comparison filtered_df
  = ([SuccessBox sales_boost_text nan; WarningBox profit_diff_text nan],
     Done tt).
Proof.
  intros Hdf Hnone Hsome. rewrite (comparison_cases _ Hdf).
  pose proof Hdf as (Hal & _).
  pose proof (empty_loc filtered_df
                (fun r => eqb (num "discount" r) zero) Hal
                (prepared_columns _ Hdf)) as Hempty.
  fold (non_discounted_rows filtered_df) in Hempty.
  destruct (empty _) eqn:He.
  - exfalso. apply Hsome. now apply Hempty.
  - simpl. now rewrite Hnone.
Qed.

Lemma comparison_without_discounted_rows_witness :
  comparison (prepared_of no_discounts)
  = ([SuccessBox sales_boost_text nan; WarningBox profit_diff_text nan],
     Done tt).
Proof.
  apply (comparison_without_discounted_rows (prepared_of no_discounts)).
  - exact no_discounts_prepared.
  - reflexivity.
  - discriminate.
Defined.

(** ** Lines 71-76: the bounds of the slider *)




(** ** Line 71: a slider between equal bounds *)

(** X16. When every discount of the table that is not missing is the same
    number, as in a file of one record, the slider is called with equal
    bounds and raises: the run ends on line 71 after the page header and the
    two selection boxes, and draws neither the slider nor anything of the
    page below. *)
Theorem equal_discounts_raise (unicode_strip_lower : string -> string)
    (parse_datetime : scalar -> option Z)
    (pearson : list float64 -> list float64 -> float64)
    (w : env) (raw df : frame) :
  read_csv w file_path = Some raw ->
  prepare unicode_strip_lower parse_datetime raw = ret df ->
  prepared df ->
  flat df ->
  exists c g,
    column df "category" c /\ column df "region" g
    /\ dashboard unicode_strip_lower parse_datetime pearson w
       = ([PageConfig "E-Commerce Discount Analysis" "wide";
           Title "E-Commerce Discount Analysis Dashboard";
           Markdown
             "Analyze how discounts affect **sales, profit, and customer behavior** across categories and regions.";
           SidebarHeader "Filters";
           MultiselectWidget "Select Categories:" (unique c) (unique c);
           MultiselectWidget "Select Regions:" (unique g) (unique g)],
          Raised (StreamlitError "Select Discount Range:")).
Proof.
  intros Hcsv Hprep (Hal & (c & Hc) & (g & Hg) & (d & xs & Hd & Hxs) & _)
    Hflat.
  exists c, g. repeat (split; [assumption | ]).
  pose proof (flat_bounds df d xs Hal Hd Hxs Hflat) as He.
  unfold dashboard, load_data. rewrite Hcsv. cbn [bind ret emit].
  rewrite Hprep. cbn [bind ret emit].
  now rewrite (sidebar_raises w df c g d xs Hc Hg Hd Hxs He).
Qed.

Lemma equal_discounts_raise_witness :
  let df := prepared_of no_discounts in
  exists c g,
    column df "category" c /\ column df "region" g
    /\ dashboard no_unicode no_date no_correlation
         (untouched (Some no_discounts))
       = ([PageConfig "E-Commerce Discount Analysis" "wide";
           Title "E-Commerce Discount Analysis Dashboard";
           Markdown
             "Analyze how discounts affect **sales, profit, and customer behavior** across categories and regions.";
           SidebarHeader "Filters";
           MultiselectWidget "Select Categories:" (unique c) (unique c);
           MultiselectWidget "Select Regions:" (unique g) (unique g)],
          Raised (StreamlitError "Select Discount Range:")).
Proof.
  apply (equal_discounts_raise no_unicode no_date no_correlation
           (untouched (Some no_discounts)) no_discounts
           (prepared_of no_discounts)).
  - reflexivity.
  - reflexivity.
  - exact no_discounts_prepared.
  - split.
    + exists (nth 0 (rows (prepared_of no_discounts)) (O, [])).
      split; [left; reflexivity | reflexivity].
    + intros r r' [<- | [<- | []]] [<- | [<- | []]] _ _; reflexivity.
Defined.

(** ** Lines 127-131: one bar per group *)

Lemma distinct_from_separated {A : Type} (eq : A -> A -> bool) :
  (forall x, eq x x = true) ->
  (forall x y, eq x y = eq y x) ->
  forall l seen,
    (forall y, In y (distinct_from eq seen l) -> existsb (eq y) seen = false)
    /\ NoDup (distinct_from eq seen l)
    /\ (forall a b,
           In a (distinct_from eq seen l) -> In b (distinct_from eq seen l) ->
           eq a b = true -> a = b).
Proof.
  intros Hrefl Hsym. induction l as [ | x l IH]; intros seen; simpl.
  - repeat split; [easy | constructor | easy].
  - destruct (existsb (eq x) seen) eqn:Hseen; [apply IH | ].
    destruct (IH (x :: seen)) as (Hout & Hnd & Hpair).
    assert (Hx : forall y, In y (distinct_from eq (x :: seen) l) ->
                           eq y x = false /\ existsb (eq y) seen = false).
    { intros y Hy. apply Hout in Hy. simpl in Hy.
      now apply orb_false_iff in Hy. }
    repeat split.
    + intros y [<- | Hy]; [assumption | now apply Hx].
    + constructor; [ | assumption]. intros Hin. apply Hx in Hin as [Hin _].
      now rewrite Hrefl in Hin.
    + intros a b [<- | Ha] [<- | Hb] Heq; try reflexivity.
      * apply Hx in Hb as [Hb _]. rewrite Hsym in Hb. congruence.
      * apply Hx in Ha as [Ha _]. congruence.
      * now apply Hpair.
Qed.

Lemma NoDup_insert_key (k : key) (l : list key) :
  ~ In k l -> NoDup l -> NoDup (insert_key k l).
Proof.
  induction l as [ | k' l IH]; simpl; intros Hk Hnd.
  - constructor; [easy | constructor].
  - destruct (key_ltb k k'); [now constructor | ].
    inversion Hnd as [ | ? ? Hk' Hnd']; subst. constructor.
    + rewrite In_insert_key. intros [-> | Hin]; [ | contradiction].
      apply Hk. now left.
    + apply IH; [ | assumption]. intros Hin. apply Hk. now right.
Qed.

Lemma NoDup_sort_keys (l : list key) : NoDup l -> NoDup (sort_keys l).
Proof.
  unfold sort_keys. induction 1 as [ | k l Hk Hnd IH]; simpl;
    [constructor | ].
  apply NoDup_insert_key; [ | assumption].
  fold (sort_keys l). now rewrite In_sort_keys.
Qed.

Lemma NoDup_map_injective {A B : Type} (f : A -> B) (l : list A) :
  (forall x y, f x = f y -> x = y) -> NoDup l -> NoDup (map f l).
Proof.
  intros Hinj. induction 1 as [ | x l Hx Hnd IH]; simpl; constructor;
    [ | assumption].
  intros Hin. apply in_map_iff in Hin as (y & Heq & Hy).
  apply Hinj in Heq. now subst y.
Qed.

(** X15. The grouped bar chart has one bar per group: no bar is listed
    twice, and two bars never stand for the same category and the same
    flag. *)
Theorem bars_are_distinct (filtered_df : frame) :
  prepared filtered_df ->
  exists bars,
    profit_cat filtered_df = ret bars
    /\ NoDup bars
    /\ forall b b', In b bars -> In b' bars ->
         same_key (bar_category b, bar_discount b)
                  (bar_category b', bar_discount b') = true ->
         b = b'.
Proof.
  intros Hdf. eexists. split; [now apply profit_by_category_ret | ].
  set (rs := rows filtered_df).
  destruct (distinct_from_separated same_key same_key_refl same_key_sym
              (filter (fun k => negb (isna (fst k))) (map group_of rs)) [])
    as (_ & Hnd & Hpair).
  split.
  - apply NoDup_map_injective.
    + intros k k' Heq. destruct k, k'. now inversion Heq.
    + unfold group_keys. now apply NoDup_sort_keys.
  - intros b b' Hb Hb' Hsame.
    apply in_map_iff in Hb as ([c flag] & <- & Hk).
    apply in_map_iff in Hb' as ([c' flag'] & <- & Hk').
    simpl in Hsame. unfold group_keys in Hk, Hk'.
    apply (proj1 (In_sort_keys _ _)) in Hk, Hk'.
    now rewrite (Hpair _ _ Hk Hk' Hsame).
Qed.

Lemma bars_are_distinct_witness :
  exists bars,
    profit_cat (prepared_of two_records) = ret bars
    /\ NoDup bars
    /\ forall b b', In b bars -> In b' bars ->
         same_key (bar_category b, bar_discount b)
                  (bar_category b', bar_discount b') = true ->
         b = b'.
Proof.
  apply (bars_are_distinct (prepared_of two_records)).
  exact two_records_prepared.
Defined.
